(** * InsarToolkit: geographic transform helpers and the MapShow statistics

    A shallow embedding of [MetaFormatting/InsarFormatting.py] (the pixel /
    map coordinate helpers and the [GDALtransform] extent) and of the
    statistics part of the [MapShow.py] script (complex decomposition,
    background resolution and masking, outlier filtering, percentile
    bounds and histogram).

    Numbers.  Python floats are modelled by exact rationals [Q]; every
    statement below is about the arithmetic the code writes down, not about
    rounding.  The concrete inputs used in examples are small integers, on
    which binary floating point is exact as well.  Only the error states
    of [coords2px] need more: they are stated over floats with infinities,
    NaN and overflow (module [Floats]). *)

From Stdlib Require Import String ZArith QArith Qround Qabs Bool Lia Lqa List.
From Stdlib Require Import Sorting.Sorted.
Import ListNotations.

Local Open Scope Q_scope.

(** ** Python exceptions and results *)

Inductive pyexc : Type :=
  | ZeroDivisionError
  | IndexError
  | ValueError
  | TypeError
  | AttributeError
  | OverflowError.

Inductive result (A : Type) : Type :=
  | Ok (a : A)
  | Raise (e : pyexc).

Arguments Ok {A} a.
Arguments Raise {A} e.

Definition bind {A B : Type} (r : result A) (k : A -> result B) : result B :=
  match r with
  | Ok a => k a
  | Raise e => Raise e
  end.

Notation "x <- r ;; k" := (bind r (fun x => k))
  (at level 61, r at next level, right associativity).

(** ** Python scalar operations *)

(** [a / b] on Python floats: raises [ZeroDivisionError] on a zero divisor. *)
Definition py_truediv (a b : Q) : result Q :=
  if Qeq_bool b 0 then Raise ZeroDivisionError else Ok (a / b).

(** [int(x)]: truncation toward zero. *)
Definition py_int (x : Q) : Z := Z.quot (Qnum x) (Zpos (Qden x)).

(** ** InsarFormatting.py: geographic transform *)

Module InsarFormatting.

(** The six-entry tuple returned by [GetGeoTransform()]; the code reads
    entries 0, 1, 3 and 5. *)
Record geotransform : Type := mkTransform {
  tnsf0 : Q;  (* left / xstart *)
  tnsf1 : Q;  (* dx / xstep *)
  tnsf2 : Q;
  tnsf3 : Q;  (* top / ystart *)
  tnsf4 : Q;
  tnsf5 : Q   (* dy / ystep *)
}.

Definition px2coords (tnsf : geotransform) (px py : Q) : Q * Q :=
  let left := tnsf0 tnsf in let dx := tnsf1 tnsf in
  let top := tnsf3 tnsf in let dy := tnsf5 tnsf in
  let xcoord := left + px * dx in
  let ycoord := top + py * dy in
  (xcoord, ycoord).

Definition coords2px (tnsf : geotransform) (lon lat : Q) : result (Z * Z) :=
  let left := tnsf0 tnsf in let dx := tnsf1 tnsf in
  let top := tnsf3 tnsf in let dy := tnsf5 tnsf in
  qx <- py_truediv (lon - left) dx ;;
  let px := py_int qx in
  qy <- py_truediv (top - lat) dy ;;
  let py := py_int qy in
  Ok (px, py).

(** The extent tuple [(left, right, bottom, top)]. *)
Definition transform2extent (tnsf : geotransform) (M N : Z) : Q * Q * Q * Q :=
  let left := tnsf0 tnsf in let dx := tnsf1 tnsf in
  let right := left + dx * inject_Z N in
  let top := tnsf3 tnsf in let dy := tnsf5 tnsf in
  let bottom := top + dy * inject_Z M in
  (left, right, bottom, top).

(** [np.min([a, b])] and [np.max([a, b])] on a two-element list. *)
Definition np_min2 (a b : Q) : Q := if Qle_bool a b then a else b.
Definition np_max2 (a b : Q) : Q := if Qle_bool a b then b else a.

(** The attributes set by [GDALtransform.__init__] once [transform] and
    [shape] are known (either passed in or read from the dataset). *)
Record GDALtransform : Type := mkGDALtransform {
  m : Z; n : Z;
  xstart : Q; ystart : Q; ystep : Q; xstep : Q;
  xend : Q; yend : Q;
  ymin : Q; ymax : Q; xmin : Q; xmax : Q;
  extent : Q * Q * Q * Q;
  bounds : Q * Q * Q * Q
}.

Definition GDALtransform_init (transform : geotransform) (shape : Z * Z)
  : GDALtransform :=
  let m_ := fst shape in
  let n_ := snd shape in
  let xstart_ := tnsf0 transform in
  let ystart_ := tnsf3 transform in
  let ystep_ := tnsf5 transform in
  let xstep_ := tnsf1 transform in
  let xend_ := xstart_ + inject_Z (snd shape) * xstep_ in
  let yend_ := ystart_ + inject_Z (fst shape) * ystep_ in
  let ymin_ := np_min2 yend_ ystart_ in
  let ymax_ := np_max2 yend_ ystart_ in
  let xmin_ := np_min2 xend_ xstart_ in
  let xmax_ := np_max2 xend_ xstart_ in
  mkGDALtransform m_ n_ xstart_ ystart_ ystep_ xstep_ xend_ yend_
    ymin_ ymax_ xmin_ xmax_
    (xmin_, xmax_, ymin_, ymax_) (xmin_, ymin_, xmax_, ymax_).

End InsarFormatting.

(** ** External libraries used by MapShow.py

    [numpy] and [scipy.stats] are not part of the repository; the functions
    the script calls are written out here from their documented behaviour,
    over exact rationals. *)

Module Numpy.

(** [np.sort]: insertion into an ascending list. *)
Fixpoint insert_sorted (x : Q) (l : list Q) : list Q :=
  match l with
  | [] => [x]
  | y :: tl => if Qle_bool x y then x :: l else y :: insert_sorted x tl
  end.

Fixpoint sort (a : list Q) : list Q :=
  match a with
  | [] => []
  | x :: tl => insert_sorted x (sort tl)
  end.

(** [np.unique]: the sorted distinct values. *)
Fixpoint dedup (l : list Q) : list Q :=
  match l with
  | [] => []
  | x :: tl =>
      match tl with
      | [] => [x]
      | y :: _ => if Qeq_bool x y then dedup tl else x :: dedup tl
      end
  end.

Definition unique (a : list Q) : list Q := dedup (sort a).

(** [np.percentile(a, q)] with the default linear interpolation: the
    virtual index [q/100 * (n-1)] into the sorted data, interpolating
    between its two neighbours.  A percentage outside [0, 100] raises
    [ValueError] before anything is computed; an empty [a] has no element
    to index and raises [IndexError]. *)
Definition percentile_valid (q : Q) : bool := Qle_bool 0 q && Qle_bool q 100.

Definition percentile_sorted (s : list Q) (q : Q) : Q :=
  let n := length s in
  let vidx := q / 100 * inject_Z (Z.of_nat n - 1) in
  let lo := Z.to_nat (Qfloor vidx) in
  let hi := Nat.min (S lo) (n - 1) in
  let gamma := vidx - inject_Z (Qfloor vidx) in
  nth lo s 0 + gamma * (nth hi s 0 - nth lo s 0).

Definition percentile2 (a : list Q) (q1 q2 : Q) : result (Q * Q) :=
  if negb (percentile_valid q1 && percentile_valid q2) then Raise ValueError
  else match a with
       | [] => Raise IndexError
       | _ :: _ => Ok (percentile_sorted (sort a) q1, percentile_sorted (sort a) q2)
       end.

(** [np.histogram(a, bins=n)] for an integer [n]: [n] equal-width bins
    between the smallest and the largest value ([0, 1] for empty data, and
    half a unit on each side when all values coincide); the last bin is
    closed on the right. *)
Fixpoint list_min (x : Q) (l : list Q) : Q :=
  match l with
  | [] => x
  | y :: tl => list_min (if Qle_bool x y then x else y) tl
  end.

Fixpoint list_max (x : Q) (l : list Q) : Q :=
  match l with
  | [] => x
  | y :: tl => list_max (if Qle_bool x y then y else x) tl
  end.

Definition outer_edges (a : list Q) : Q * Q :=
  match a with
  | [] => (0, 1)
  | x :: tl =>
      let first_edge := list_min x tl in
      let last_edge := list_max x tl in
      if Qeq_bool first_edge last_edge
      then (first_edge - (1 # 2), last_edge + (1 # 2))
      else (first_edge, last_edge)
  end.

(** [np.linspace(first, last, num + 1)]. *)
Definition linspace (first_edge last_edge : Q) (num : nat) : list Q :=
  map (fun i => first_edge
                + inject_Z (Z.of_nat i) * ((last_edge - first_edge) / inject_Z (Z.of_nat num)))
      (seq 0 (S num)).

Definition bin_index (first_edge last_edge : Q) (num : nat) (x : Q) : nat :=
  let k := Z.to_nat (Qfloor ((x - first_edge) * inject_Z (Z.of_nat num)
                             / (last_edge - first_edge))) in
  if Nat.eqb k num then (num - 1)%nat else k.

Definition histogram (a : list Q) (bins : Z) : result (list nat * list Q) :=
  if (bins <? 1)%Z then Raise ValueError
  else
    let num := Z.to_nat bins in
    let '(first_edge, last_edge) := outer_edges a in
    let keep := filter (fun x => Qle_bool first_edge x && Qle_bool x last_edge) a in
    let indices := map (bin_index first_edge last_edge num) keep in
    let counts := map (fun i => length (filter (Nat.eqb i) indices)) (seq 0 num) in
    Ok (counts, linspace first_edge last_edge num).

End Numpy.

Module Scipy.

(** [scipy.stats.mode(a).mode[0]]: the most common value, the smallest one
    when several are equally common.  The loop runs over the sorted distinct
    values and replaces the running answer only on a strictly larger count. *)
Definition count_eq (x : Q) (a : list Q) : nat := length (filter (Qeq_bool x) a).

Definition mode_step (a : list Q) (st : Q * nat) (score : Q) : Q * nat :=
  let counts := count_eq score a in
  ((if Nat.ltb (snd st) counts then score else fst st), Nat.max counts (snd st)).

Definition mode (a : list Q) : result Q :=
  match a with
  | [] => Raise IndexError
  | _ :: _ => Ok (fst (fold_left (mode_step a) (Numpy.unique a) (0, 0%nat)))
  end.

End Scipy.

(** ** MapShow.py: the statistics of the viewer script *)

Module MapShow.

(** A value of an untyped [argparse] option: [None], the string typed on
    the command line, or a number.  [--background] declares no [type], so
    the parser stores [PyNone] or [PyStr]; [PyNum] is what the script itself
    assigns in the 'auto' branch. *)
Inductive pyval : Type :=
  | PyNone
  | PyStr (s : string)
  | PyNum (x : Q).

(** Python truthiness, as tested by [if inpt.background:]. *)
Definition truthy (v : pyval) : bool :=
  match v with
  | PyNone => false
  | PyStr s => negb (String.eqb s EmptyString)
  | PyNum x => negb (Qeq_bool x 0)
  end.

(** Truthiness of a [type=float] option with [default=None]. *)
Definition truthy_float (v : option Q) : bool :=
  match v with
  | None => false
  | Some x => negb (Qeq_bool x 0)
  end.

(** The options read by the statistics ([--band], [--downsample],
    [--verbose], [--plot_complex] and [--hist] only affect loading, printing
    and plotting). *)
Record Namespace : Type := mkNamespace {
  vmin : option Q;
  vmax : option Q;
  pctmin : Q;
  pctmax : Q;
  background : pyval;
  nbins : Z
}.

(** What [cmdParser] can return for [--background]. *)
Definition from_cmdline (inpt : Namespace) : Prop :=
  match background inpt with
  | PyNum _ => False
  | _ => True
  end.

(** Defaults of [createParser]. *)
Definition default_options : Namespace :=
  mkNamespace None None 0 100 PyNone 50.

Definition set_background (v : pyval) (inpt : Namespace) : Namespace :=
  mkNamespace (vmin inpt) (vmax inpt) (pctmin inpt) (pctmax inpt) v (nbins inpt).

(** Lines 57-61: the extent tuple of the viewer, [(left, right, bottom, top)]. *)
Definition extent (T : InsarFormatting.geotransform) (M N : Z) : Q * Q * Q * Q :=
  let left := InsarFormatting.tnsf0 T in let dx := InsarFormatting.tnsf1 T in
  let right := left + inject_Z N * dx in
  let top := InsarFormatting.tnsf3 T in let dy := InsarFormatting.tnsf5 T in
  let bottom := top + inject_Z M * dy in
  (left, right, bottom, top).

Definition complex : Type := (Q * Q)%type.

(** The band as read by [ReadAsArray()], tagged with its numpy sample type. *)
Inductive ndarray : Type :=
  | Float (a : list (list Q))
  | Complex64 (a : list (list complex))
  | Complex128 (a : list (list complex)).

(** The value of [img] after the real/complex test. *)
Inductive working : Type :=
  | WReal (a : list (list Q))
  | WComplex (a : list (list complex)).

(** The result of [img == background]. *)
Inductive maskval : Type :=
  | MaskArray (mk : list (list bool))
  | MaskScalar (b : bool).

(** The script's variables once the histogram is computed. *)
Record state : Type := mkState {
  imgMag : option (list (list Q));
  img : list (list Q);
  bg : pyval;
  mask : option maskval;
  imgArray : list Q;
  vmin_ : Q;
  vmax_ : Q;
  Hvals : list nat;
  Hedges : list Q;
  Hcntrs : list Q
}.

Section Script.

(** [np.abs] and [np.angle] on one complex sample. *)
Variable np_abs : complex -> Q.
Variable np_angle : complex -> Q.

(** Whether [array == 'text'] is evaluated the old way (comparison fails as
    a whole and yields the scalar [False], numpy before 1.25) or elementwise
    (an array of [False]). *)
Variable legacy_compare : bool.

(** Lines 77-80.  [isinstance(img[0,0], np.complex64)] holds for
    single-precision complex samples only. *)
Definition decompose (raw : ndarray) : option (list (list Q)) * working :=
  match raw with
  | Float a => (None, WReal a)
  | Complex64 a => (Some (map (map np_abs) a), WReal (map (map np_angle) a))
  | Complex128 a => (None, WComplex a)
  end.

(** [img[0,0]]. *)
Definition first_sample {A : Type} (a : list (list A)) : result A :=
  match a with
  | (x :: _) :: _ => Ok x
  | _ => Raise IndexError
  end.

(** Line 85: [np.concatenate([img[0,:], img[-1,:], img[:,0], img[:,-1]])]. *)
Definition edgeValues (a : list (list Q)) : list Q :=
  hd [] a ++ last a [] ++ map (fun r => hd 0 r) a ++ map (fun r => last r 0) a.

(** Lines 83-89. *)
Definition resolve_background (inpt : Namespace) (a : list (list Q)) : result pyval :=
  match background inpt with
  | PyStr s =>
      if String.eqb s "auto"
      then (b <- Scipy.mode (edgeValues a) ;; Ok (PyNum b))
      else Ok (PyStr s)
  | v => Ok v
  end.

(** Line 92: [img == background]. *)
Definition compare_eq (a : list (list Q)) (b : pyval) : maskval :=
  match b with
  | PyNum v => MaskArray (map (map (fun x => Qeq_bool x v)) a)
  | _ => if legacy_compare then MaskScalar false
         else MaskArray (map (map (fun _ => false)) a)
  end.

(** Lines 91-93. *)
Definition make_mask (inpt : Namespace) (a : list (list Q)) (b : pyval) : option maskval :=
  if truthy (background inpt) then Some (compare_eq a b) else None.

(** [x[sel]] for a boolean selector of the same length. *)
Definition select (x : list Q) (sel : list bool) : list Q :=
  map fst (filter snd (combine x sel)).

(** Lines 104-109. *)
Definition ignore_background (a : list (list Q)) (mk : option maskval) : result (list Q) :=
  let imgArray := concat a in
  match mk with
  | None => Ok imgArray
  | Some (MaskScalar _) => Raise AttributeError
  | Some (MaskArray m) =>
      let maskArray := concat m in
      Ok (select imgArray (map (fun b => Bool.eqb b false) maskArray))
  end.

(** Lines 112-115. *)
Definition ignore_outliers (inpt : Namespace) (imgArray : list Q) : list Q :=
  let imgArray :=
    if truthy_float (vmin inpt)
    then filter (fun x => match vmin inpt with Some lo => Qle_bool lo x | None => true end) imgArray
    else imgArray in
  if truthy_float (vmax inpt)
  then filter (fun x => match vmax inpt with Some up => Qle_bool x up | None => true end) imgArray
  else imgArray.

(** The population handed to [np.percentile] (lines 83-115). *)
Definition population (inpt : Namespace) (a : list (list Q)) : result (list Q) :=
  b <- resolve_background inpt a ;;
  imgArray <- ignore_background a (make_mask inpt a b) ;;
  Ok (ignore_outliers inpt imgArray).

(** Line 124: [(Hedges[:-1] + Hedges[1:]) / 2]. *)
Definition centers (edges : list Q) : list Q :=
  map (fun p => (fst p + snd p) / 2) (combine (removelast edges) (tl edges)).

(** Lines 77-124 on a real-valued working array. *)
Definition statistics (inpt : Namespace) (mag : option (list (list Q)))
    (a : list (list Q)) : result state :=
  _ <- first_sample a ;;
  b <- resolve_background inpt a ;;
  let mk := make_mask inpt a b in
  imgArray <- ignore_background a mk ;;
  let imgArray := ignore_outliers inpt imgArray in
  vv <- Numpy.percentile2 imgArray (pctmin inpt) (pctmax inpt) ;;
  let imgArray := filter (fun x => Qle_bool (fst vv) x) imgArray in
  let imgArray := filter (fun x => Qle_bool x (snd vv)) imgArray in
  hh <- Numpy.histogram imgArray (nbins inpt) ;;
  Ok (mkState mag a b mk imgArray (fst vv) (snd vv) (fst hh) (snd hh) (centers (snd hh))).

(** The script from the loaded band to the histogram.  A band that stays
    complex reaches [np.percentile], which accepts real data only (numpy
    1.25 and later raise [TypeError]; what earlier versions compute on
    complex samples is not modelled). *)
Definition main (inpt : Namespace) (raw : ndarray) : result state :=
  match decompose raw with
  | (mag, WReal a) => statistics inpt mag a
  | (_, WComplex a) => _ <- first_sample a ;; Raise TypeError
  end.

End Script.

(** *** Notions used to state the properties *)

(** [img[i,j]], the shape of an array and the positions on its border. *)
Definition sample_at (a : list (list Q)) (i j : nat) : Q := nth j (nth i a []) 0.

Definition has_shape (M N : nat) (a : list (list Q)) : Prop :=
  List.length a = M /\ Forall (fun r => List.length r = N) a.


(** A sample counts as background when masking is on and it equals the
    resolved (numeric) background value. *)
Definition is_background (inpt : Namespace) (b : pyval) (x : Q) : bool :=
  truthy (background inpt) &&
  match b with
  | PyNum v => Qeq_bool x v
  | _ => false
  end.

Definition above_vmin (inpt : Namespace) (x : Q) : bool :=
  match vmin inpt with
  | Some lo => if Qeq_bool lo 0 then true else Qle_bool lo x
  | None => true
  end.

Definition below_vmax (inpt : Namespace) (x : Q) : bool :=
  match vmax inpt with
  | Some up => if Qeq_bool up 0 then true else Qle_bool x up
  | None => true
  end.

(** The samples that enter the percentile computation. *)
Definition survives (inpt : Namespace) (b : pyval) (x : Q) : bool :=
  negb (is_background inpt b x) && above_vmin inpt x && below_vmax inpt x.

End MapShow.

(** ** Concrete inputs used in the examples *)

Module Inputs.

Import InsarFormatting MapShow.

(** A north-up transform with unit pixels and one with both steps positive. *)
Definition north_up : geotransform := mkTransform 0 1 0 0 0 (-1).
Definition south_up : geotransform := mkTransform 0 1 0 0 0 1.

(** The 3 x 3 array of fives around a one. *)
Definition img5 : list (list Q) := [[5; 5; 5]; [5; 1; 5]; [5; 5; 5]].

(** A border of nines around a varying interior. *)
Definition img9 : list (list Q) := [[9; 9; 9; 9]; [9; 1; 2; 9]; [9; 3; 1; 9]; [9; 9; 9; 9]].

(** [--background 5] as the parser stores it, and the number 5. *)
Definition opts_bg_str5 : Namespace := mkNamespace None None 0 100 (PyStr "5") 50.
Definition opts_bg_num5 : Namespace := mkNamespace None None 0 100 (PyNum 5) 50.
Definition opts_bg_auto : Namespace := mkNamespace None None 0 100 (PyStr "auto") 4.

(** [--pctmin 100 --pctmax 0 --nbins 5]. *)
Definition opts_pct_swapped : Namespace := mkNamespace None None 100 0 PyNone 5.

Definition opts_small : Namespace := mkNamespace None None 0 100 PyNone 2.

(** A one-sample complex band. *)
Definition cplx : list (list complex) := [[(3, 4)]].

(** Stand-ins for [np.abs] and [np.angle] where an instance is needed. *)
Definition abs0 (c : complex) : Q := fst c * fst c + snd c * snd c.
Definition angle0 (c : complex) : Q := snd c.

End Inputs.

(** ** The remaining entry points

    The [GDALtransform] constructor with its optional arguments, and the
    downsampling applied to the displayed array at the end of the script. *)

Module Construct.

Import InsarFormatting.

(** What the constructor reads from an open dataset. *)
Record dataset : Type := mkDataset {
  GetGeoTransform : geotransform;
  RasterYSize : Z;
  RasterXSize : Z
}.

(** [GDALtransform(DS=None, transform=None, shape=None)]: a dataset, when
    given, replaces both other arguments; subscripting a missing [shape] or
    [transform] raises [TypeError]. *)
Definition GDALtransform_new (DS : option dataset) (transform : option geotransform)
    (shape : option (Z * Z)) : result GDALtransform :=
  let transform := match DS with Some d => Some (GetGeoTransform d) | None => transform end in
  let shape := match DS with Some d => Some (RasterYSize d, RasterXSize d) | None => shape end in
  match shape with
  | None => Raise TypeError
  | Some sh =>
      match transform with
      | None => Raise TypeError
      | Some t => Ok (GDALtransform_init t sh)
      end
  end.

End Construct.

Module Display.

(** [int(2**dsample)] for an integer [dsample]: an exact power of two for
    a non-negative exponent, and a float strictly between 0 and 1, hence 0,
    for a negative one. *)
Definition dsample_factor (dsample : Z) : Z :=
  if (0 <=? dsample)%Z then (2 ^ dsample)%Z else 0%Z.

(** [x[::d]] for a positive step: the entries at positions 0, d, 2d, ...;
    [k] counts the entries to skip before the next one is kept. *)
Fixpoint stride_from {A : Type} (d k : nat) (l : list A) : list A :=
  match l with
  | [] => []
  | x :: tl =>
      match k with
      | O => x :: stride_from d (d - 1) tl
      | S k' => stride_from d k' tl
      end
  end.

Definition stride {A : Type} (d : nat) (l : list A) : list A := stride_from d 0 l.

(** Lines 140 and 146: [img[::dsample, ::dsample]]; a zero step raises
    [ValueError]. *)
Definition downsample {A : Type} (dsample : Z) (a : list (list A)) : result (list (list A)) :=
  let d := dsample_factor dsample in
  if (d =? 0)%Z then Raise ValueError
  else Ok (map (stride (Z.to_nat d)) (stride (Z.to_nat d) a)).

End Display.

Module Bins.

(** The samples a bin of a histogram stands for: those from its left edge
    up to, but not including, its right edge; the last of the [num] bins
    includes its right edge. *)
Definition in_bin (edges : list Q) (num i : nat) (x : Q) : bool :=
  Qle_bool (nth i edges 0) x &&
  (if Nat.eqb (S i) num
   then Qle_bool x (nth (S i) edges 0)
   else negb (Qle_bool (nth (S i) edges 0) x)).

End Bins.

Module MoreInputs.

(** A dataset handle with a north-up transform, 2 rows and 3 columns. *)
Definition handle : Construct.dataset := Construct.mkDataset Inputs.north_up 2 3.

(** [--background auto --nbins 4] with the percentages 25 and 75. *)
Definition opts_auto_quartiles : MapShow.Namespace :=
  MapShow.mkNamespace None None 25 75 (MapShow.PyStr "auto") 4.

End MoreInputs.

(** ** Floats with their special values

    The error states of [coords2px] depend on what exact rationals cannot
    show: infinities, NaN and overflow.  Here a float is a finite rational,
    an infinity or NaN; the result of an operation on finite values goes
    through a rounding function [fl], which may overflow to an infinity.
    The sign of a zero is not kept (it only affects the sign of an
    infinity). *)

Module Floats.

Inductive pyfloat : Type :=
  | Finite (x : Q)
  | Infinity (negative : bool)
  | NaN.

Definition is_zero (a : pyfloat) : bool :=
  match a with
  | Finite x => Qeq_bool x 0
  | _ => false
  end.

Definition is_negative (x : Q) : bool := negb (Qle_bool 0 x).

(** The six-entry tuple of floats. *)
Record ftransform : Type := mkFtransform {
  ft0 : pyfloat; ft1 : pyfloat; ft2 : pyfloat;
  ft3 : pyfloat; ft4 : pyfloat; ft5 : pyfloat
}.

Definition of_geotransform (t : InsarFormatting.geotransform) : ftransform :=
  mkFtransform (Finite (InsarFormatting.tnsf0 t)) (Finite (InsarFormatting.tnsf1 t))
    (Finite (InsarFormatting.tnsf2 t)) (Finite (InsarFormatting.tnsf3 t))
    (Finite (InsarFormatting.tnsf4 t)) (Finite (InsarFormatting.tnsf5 t)).

(** A rounding that is exact up to the largest double and overflows
    beyond it. *)
Definition max_double : Q := inject_Z (2 ^ 1024 - 2 ^ 971).

Definition fl_overflow (r : Q) : pyfloat :=
  if Qle_bool (Qabs r) max_double then Finite r else Infinity (is_negative r).

Section Arithmetic.

(** Rounding of an exact result to a float. *)
Variable fl : Q -> pyfloat.

(** Whether the operands are numpy scalars: their division by zero gives
    an infinity or NaN (with a warning) where Python floats raise. *)
Variable numpy_scalars : bool.

(** [a - b]. *)
Definition fsub (a b : pyfloat) : pyfloat :=
  match a, b with
  | NaN, _ | _, NaN => NaN
  | Infinity s, Infinity s' => if Bool.eqb s s' then NaN else Infinity s
  | Infinity s, Finite _ => Infinity s
  | Finite _, Infinity s => Infinity (negb s)
  | Finite x, Finite y => fl (x - y)
  end.

(** The quotient [a / b] by the IEEE rules, a zero divisor included. *)
Definition ieee_div (a b : pyfloat) : pyfloat :=
  match a, b with
  | NaN, _ | _, NaN => NaN
  | Infinity _, Infinity _ => NaN
  | Infinity s, Finite y => Infinity (xorb s (is_negative y))
  | Finite _, Infinity _ => Finite 0
  | Finite x, Finite y =>
      if Qeq_bool y 0
      then (if Qeq_bool x 0 then NaN else Infinity (is_negative x))
      else fl (x / y)
  end.

(** [a / b]: Python floats raise [ZeroDivisionError] on a zero divisor,
    whatever the dividend. *)
Definition fdiv (a b : pyfloat) : result pyfloat :=
  if is_zero b && negb numpy_scalars then Raise ZeroDivisionError
  else Ok (ieee_div a b).

(** [int(x)] on a float. *)
Definition fint (a : pyfloat) : result Z :=
  match a with
  | Finite x => Ok (py_int x)
  | Infinity _ => Raise OverflowError
  | NaN => Raise ValueError
  end.

(** [coords2px], statement by statement. *)
Definition coords2px (tnsf : ftransform) (lon lat : pyfloat) : result (Z * Z) :=
  let left := ft0 tnsf in let dx := ft1 tnsf in
  let top := ft3 tnsf in let dy := ft5 tnsf in
  qx <- fdiv (fsub lon left) dx ;;
  px <- fint qx ;;
  qy <- fdiv (fsub top lat) dy ;;
  py <- fint qy ;;
  Ok (px, py).

End Arithmetic.

(** Pixels of 1e-200 units, and a longitude of 1e200. *)
Definition tiny_pixels : ftransform :=
  mkFtransform (Finite 0) (Finite (1 # 10 ^ 200)) (Finite 0)
    (Finite 0) (Finite 0) (Finite (- (1))).

Definition far_east : pyfloat := Finite (inject_Z (10 ^ 200)).

End Floats.

(** ** Auxiliary facts on numbers *)

Lemma py_int_inject (q : Q) (z : Z) : q == inject_Z z -> py_int q = z.
Proof.
  unfold Qeq, py_int; simpl. intros H.
  rewrite Z.mul_1_r in H. rewrite H.
  apply Z.quot_mul. discriminate.
Qed.

Lemma py_truediv_ok (a b : Q) : ~ b == 0 -> py_truediv a b = Ok (a / b).
Proof.
  intros Hb. unfold py_truediv.
  destruct (Qeq_bool b 0) eqn:E; [|reflexivity].
  apply Qeq_bool_iff in E. contradiction.
Qed.

Lemma py_truediv_raise (a b : Q) : b == 0 -> py_truediv a b = Raise ZeroDivisionError.
Proof.
  intros Hb. unfold py_truediv.
  apply Qeq_bool_iff in Hb. now rewrite Hb.
Qed.

Lemma np_min2_le_max2 (a b : Q) :
  InsarFormatting.np_min2 a b <= InsarFormatting.np_max2 a b.
Proof.
  unfold InsarFormatting.np_min2, InsarFormatting.np_max2.
  destruct (Qle_bool a b) eqn:E.
  - now apply Qle_bool_iff.
  - destruct (Qlt_le_dec b a) as [H|H].
    + now apply Qlt_le_weak.
    + apply Qle_bool_iff in H. congruence.
Qed.

(** ** The geographic transform *)

Section GeoTransform.

Import InsarFormatting.

Variable tnsf : geotransform.

Lemma px2coords_fst (px py : Q) : fst (px2coords tnsf px py) = tnsf0 tnsf + px * tnsf1 tnsf.
Proof. reflexivity. Qed.

Lemma px2coords_snd (px py : Q) : snd (px2coords tnsf px py) = tnsf3 tnsf + py * tnsf5 tnsf.
Proof. reflexivity. Qed.

(** C1.  On the code the round trip through [px2coords] and [coords2px]
    returns the column unchanged but the row negated: for nonzero steps and
    integer [px], [py], the result is [(px, -py)], not [(px, py)]. *)
Theorem coords2px_px2coords (px py : Z) :
  ~ tnsf1 tnsf == 0 -> ~ tnsf5 tnsf == 0 ->
  coords2px tnsf (fst (px2coords tnsf (inject_Z px) (inject_Z py)))
                 (snd (px2coords tnsf (inject_Z px) (inject_Z py)))
  = Ok (px, (- py)%Z).
Proof.
  intros Hx Hy. rewrite px2coords_fst, px2coords_snd.
  unfold coords2px. cbv zeta.
  rewrite (py_truediv_ok _ _ Hx). cbn [bind].
  rewrite (py_truediv_ok _ _ Hy). cbn [bind].
  f_equal. f_equal.
  - apply py_int_inject. field. exact Hx.
  - apply py_int_inject. rewrite inject_Z_opp. field. exact Hy.
Qed.

(** The only failure of [coords2px]: a zero step. *)
Lemma coords2px_cases (lon lat : Q) :
  match coords2px tnsf lon lat with
  | Ok _ => ~ tnsf1 tnsf == 0 /\ ~ tnsf5 tnsf == 0
  | Raise e => e = ZeroDivisionError /\ (tnsf1 tnsf == 0 \/ tnsf5 tnsf == 0)
  end.
Proof.
  unfold coords2px, py_truediv. cbv zeta.
  destruct (Qeq_bool (tnsf1 tnsf) 0) eqn:Ex; cbn [bind].
  - apply Qeq_bool_iff in Ex. auto.
  - destruct (Qeq_bool (tnsf5 tnsf) 0) eqn:Ey; cbn [bind].
    + apply Qeq_bool_iff in Ey. auto.
    + split; intros H; apply Qeq_bool_iff in H; congruence.
Qed.

End GeoTransform.

(** C1, at a north-up transform: pixel (0, 3) maps to the point (0, -3),
    which maps back to pixel (0, -3). *)
Lemma coords2px_px2coords_witness :
  InsarFormatting.px2coords Inputs.north_up 0 3 = (0 + 0 * 1, 0 + 3 * -(1)) /\
  InsarFormatting.coords2px Inputs.north_up
    (fst (InsarFormatting.px2coords Inputs.north_up (inject_Z 0) (inject_Z 3)))
    (snd (InsarFormatting.px2coords Inputs.north_up (inject_Z 0) (inject_Z 3)))
  = Ok (0%Z, (- 3)%Z).
Proof.
  split; [reflexivity|].
  apply (coords2px_px2coords Inputs.north_up 0 3); simpl; discriminate.
Defined.

(** In exact arithmetic [coords2px] fails exactly when the x step or the y
    step is zero, with the division error; otherwise it returns a pixel
    pair. *)
Lemma coords2px_fails_iff_zero_step (tnsf : InsarFormatting.geotransform) (lon lat : Q) :
  (InsarFormatting.coords2px tnsf lon lat = Raise ZeroDivisionError
   <-> (InsarFormatting.tnsf1 tnsf == 0 \/ InsarFormatting.tnsf5 tnsf == 0))
  /\ ((exists p, InsarFormatting.coords2px tnsf lon lat = Ok p)
      <-> (~ InsarFormatting.tnsf1 tnsf == 0 /\ ~ InsarFormatting.tnsf5 tnsf == 0))
  /\ (forall e, InsarFormatting.coords2px tnsf lon lat = Raise e -> e = ZeroDivisionError).
Proof.
  pose proof (coords2px_cases tnsf lon lat) as H.
  destruct (InsarFormatting.coords2px tnsf lon lat) as [p|e].
  - destruct H as [Hx Hy]. split; [|split].
    + split; [discriminate | intros [H|H]; contradiction].
    + split; [intros _; now split | intros _; now exists p].
    + discriminate.
  - destruct H as [-> H]. split; [|split].
    + split; [intros _; exact H | reflexivity].
    + split; [intros [p Hp]; discriminate | intros [Hx Hy]; destruct H; contradiction].
    + intros e He. now inversion He.
Qed.

(** C2, as stated, fails on [transform2extent]: with a positive y step the
    returned tuple has its bottom above its top. *)
Lemma transform2extent_not_normalized :
  ~ (let '(l, r, b, t) :=
       InsarFormatting.transform2extent Inputs.south_up 1 1 in
     l <= r /\ b <= t).
Proof.
  cbn. intros [_ H]. revert H. unfold Qle. cbn. lia.
Qed.

(** C2, amended.  The extent built by [GDALtransform] is normalised for
    every transform and shape: [xmin <= xmax] and [ymin <= ymax], and
    [extent] lists them as (xmin, xmax, ymin, ymax).  [transform2extent] and
    the viewer return the raw edges (left, right, bottom, top): these are in
    order exactly when [dx * N >= 0], respectively [dy * M <= 0]. *)
Theorem extent_normalized (tnsf : InsarFormatting.geotransform) (M N : Z) :
  let g := InsarFormatting.GDALtransform_init tnsf (M, N) in
  (InsarFormatting.xmin g <= InsarFormatting.xmax g
   /\ InsarFormatting.ymin g <= InsarFormatting.ymax g
   /\ InsarFormatting.extent g
      = (InsarFormatting.xmin g, InsarFormatting.xmax g,
         InsarFormatting.ymin g, InsarFormatting.ymax g))
  /\ (let '(l, r, b, t) := InsarFormatting.transform2extent tnsf M N in
      (l <= r <-> 0 <= InsarFormatting.tnsf1 tnsf * inject_Z N)
      /\ (b <= t <-> InsarFormatting.tnsf5 tnsf * inject_Z M <= 0))
  /\ (let '(l, r, b, t) := MapShow.extent tnsf M N in
      (l <= r <-> 0 <= InsarFormatting.tnsf1 tnsf * inject_Z N)
      /\ (b <= t <-> InsarFormatting.tnsf5 tnsf * inject_Z M <= 0)).
Proof.
  cbv zeta. split; [|split].
  - cbn. repeat split; apply np_min2_le_max2.
  - cbn. split.
    + rewrite <- (Qplus_0_r (InsarFormatting.tnsf0 tnsf)) at 1.
      rewrite Qplus_le_r. reflexivity.
    + rewrite <- (Qplus_0_r (InsarFormatting.tnsf3 tnsf)) at 2.
      rewrite Qplus_le_r. reflexivity.
  - cbn. split.
    + rewrite <- (Qplus_0_r (InsarFormatting.tnsf0 tnsf)) at 1.
      rewrite Qplus_le_r, (Qmult_comm (inject_Z N)). reflexivity.
    + rewrite <- (Qplus_0_r (InsarFormatting.tnsf3 tnsf)) at 2.
      rewrite Qplus_le_r, (Qmult_comm (inject_Z M)). reflexivity.
Qed.

(** ** Facts on the numpy functions *)

Section NumpyFacts.

Import Numpy.

Lemma Qle_bool_false_lt (x y : Q) : Qle_bool x y = false -> y < x.
Proof.
  intros E. destruct (Qlt_le_dec y x) as [H|H]; [exact H|].
  apply Qle_bool_iff in H. congruence.
Qed.

Lemma list_min_spec (l : list Q) : forall x,
  list_min x l <= x /\ Forall (fun y => list_min x l <= y) l.
Proof.
  induction l as [|y tl IH]; intros x; cbn [list_min].
  - split; [apply Qle_refl | constructor].
  - destruct (Qle_bool x y) eqn:E.
    + destruct (IH x) as [Hx Htl]. apply Qle_bool_iff in E.
      split; [exact Hx|]. constructor; [|exact Htl].
      now apply Qle_trans with x.
    + destruct (IH y) as [Hy Htl]. apply Qle_bool_false_lt in E.
      split; [|constructor; assumption].
      apply Qle_trans with y; [exact Hy | now apply Qlt_le_weak].
Qed.

Lemma list_max_spec (l : list Q) : forall x,
  x <= list_max x l /\ Forall (fun y => y <= list_max x l) l.
Proof.
  induction l as [|y tl IH]; intros x; cbn [list_max].
  - split; [apply Qle_refl | constructor].
  - destruct (Qle_bool x y) eqn:E.
    + destruct (IH y) as [Hy Htl]. apply Qle_bool_iff in E.
      split; [|constructor; assumption].
      now apply Qle_trans with y.
    + destruct (IH x) as [Hx Htl]. apply Qle_bool_false_lt in E.
      split; [exact Hx|]. constructor; [|exact Htl].
      apply Qle_trans with x; [now apply Qlt_le_weak | exact Hx].
Qed.

(** The histogram range is never degenerate and covers the data. *)
Lemma outer_edges_spec (a : list Q) :
  fst (outer_edges a) < snd (outer_edges a)
  /\ Forall (fun x => fst (outer_edges a) <= x /\ x <= snd (outer_edges a)) a.
Proof.
  destruct a as [|x tl]; cbn [outer_edges].
  - split; [reflexivity | constructor].
  - destruct (list_min_spec tl x) as [Hmx Hmtl].
    destruct (list_max_spec tl x) as [HMx HMtl].
    assert (Hall : Forall (fun y => list_min x tl <= y /\ y <= list_max x tl) (x :: tl)).
    { constructor; [now split|].
      rewrite Forall_forall in *. intros y Hy. split; auto. }
    destruct (Qeq_bool (list_min x tl) (list_max x tl)) eqn:E; cbn [fst snd].
    + apply Qeq_bool_iff in E. split.
      * rewrite E. apply Qplus_lt_r. reflexivity.
      * eapply Forall_impl; [|exact Hall]. cbn. intros y [H1 H2]. split.
        -- apply Qle_trans with (list_min x tl); [|exact H1].
           rewrite <- (Qplus_0_r (list_min x tl)) at 2.
           apply Qplus_le_r. discriminate.
        -- apply Qle_trans with (list_max x tl); [exact H2|].
           rewrite <- (Qplus_0_r (list_max x tl)) at 1.
           apply Qplus_le_r. discriminate.
    + split; [|exact Hall].
      apply Qle_lteq in Hmx. apply Qle_lteq in HMx.
      assert (Hle : list_min x tl <= list_max x tl)
        by (apply Qle_trans with x; apply Qle_lteq; assumption).
      apply Qle_lteq in Hle. destruct Hle as [Hlt|Heq]; [exact Hlt|].
      apply Qeq_bool_iff in Heq. congruence.
Qed.

Lemma bin_index_lt (f l : Q) (num : nat) (x : Q) :
  f < l -> (0 < num)%nat -> x <= l -> (bin_index f l num x < num)%nat.
Proof.
  intros Hfl Hnum Hx. unfold bin_index.
  set (v := (x - f) * inject_Z (Z.of_nat num) / (l - f)).
  assert (Hd : 0 < l - f) by (unfold Qminus; rewrite <- Qlt_minus_iff; exact Hfl).
  assert (Hv : v <= inject_Z (Z.of_nat num)).
  { unfold v. apply Qle_shift_div_r; [exact Hd|].
    rewrite (Qmult_comm (x - f)). apply Qmult_le_l.
    - change 0 with (inject_Z 0). rewrite <- Zlt_Qlt. lia.
    - unfold Qminus. apply Qplus_le_l. exact Hx. }
  assert (Hk : (Qfloor v <= Z.of_nat num)%Z).
  { rewrite <- (Qfloor_Z (Z.of_nat num)). now apply Qfloor_resp_le. }
  destruct (Nat.eqb (Z.to_nat (Qfloor v)) num) eqn:E.
  - lia.
  - apply Nat.eqb_neq in E. lia.
Qed.

Lemma list_sum_map_add {A : Type} (f g : A -> nat) (l : list A) :
  list_sum (map (fun i => (f i + g i)%nat) l)
  = (list_sum (map f l) + list_sum (map g l))%nat.
Proof.
  unfold list_sum. induction l as [|a l IH]; cbn; [reflexivity|]. rewrite IH. lia.
Qed.

Lemma list_sum_indicator (k : nat) : forall len start,
  list_sum (map (fun i => if Nat.eqb i k then 1%nat else 0%nat) (seq start len))
  = if (Nat.leb start k && Nat.ltb k (start + len))%bool then 1%nat else 0%nat.
Proof.
  induction len as [|len IH]; intros start; cbn [seq map list_sum fold_right].
  - destruct (Nat.leb_spec start k), (Nat.ltb_spec k (start + 0)); cbn; lia.
  - change (fold_right Nat.add 0%nat ?l) with (list_sum l). rewrite IH.
    destruct (Nat.eqb_spec start k), (Nat.leb_spec start k),
      (Nat.leb_spec (S start) k), (Nat.ltb_spec k (start + S len)),
      (Nat.ltb_spec k (S start + len)); cbn; lia.
Qed.

(** Counting per bin loses nothing when every index is a bin number. *)
Lemma bincount_total (num : nat) (indices : list nat) :
  Forall (fun i => (i < num)%nat) indices ->
  list_sum (map (fun i => List.length (filter (Nat.eqb i) indices)) (seq 0 num))
  = List.length indices.
Proof.
  induction 1 as [|k tl Hk _ IH]; cbn [filter List.length].
  - induction (seq 0 num) as [|a l IHl]; cbn; auto.
  - rewrite <- IH.
    rewrite (map_ext _ (fun i => ((if Nat.eqb i k then 1 else 0)
                                  + List.length (filter (Nat.eqb i) tl))%nat)).
    + rewrite list_sum_map_add, list_sum_indicator.
      destruct (Nat.ltb_spec k (0 + num)); cbn; lia.
    + intros i. destruct (Nat.eqb i k); reflexivity.
Qed.

Lemma filter_all {A : Type} (p : A -> bool) (l : list A) :
  Forall (fun x => p x = true) l -> filter p l = l.
Proof.
  induction 1 as [|x tl Hx _ IH]; cbn; [reflexivity|]. now rewrite Hx, IH.
Qed.

Lemma linspace_length (f l : Q) (num : nat) : List.length (linspace f l num) = S num.
Proof. unfold linspace. now rewrite length_map, length_seq. Qed.

(** What [np.histogram] returns: one count per bin, one more edge than
    bins, and every sample of [a] counted once. *)
Lemma histogram_spec (a : list Q) (bins : Z) (counts : list nat) (edges : list Q) :
  histogram a bins = Ok (counts, edges) ->
  (1 <= bins)%Z
  /\ List.length counts = Z.to_nat bins
  /\ List.length edges = S (List.length counts)
  /\ list_sum counts = List.length a.
Proof.
  unfold histogram. destruct (Z.ltb_spec bins 1) as [|Hb]; [discriminate|].
  pose proof (outer_edges_spec a) as [Hlt Hcover].
  destruct (outer_edges a) as [f l]. cbn [fst snd] in *.
  intros H. injection H as <- <-.
  rewrite length_map, length_seq, linspace_length.
  repeat split; try assumption.
  rewrite (filter_all _ a).
  - rewrite bincount_total; [apply length_map|].
    rewrite Forall_map. eapply Forall_impl; [|exact Hcover].
    cbn. intros x [_ Hx]. apply bin_index_lt; [exact Hlt | lia | exact Hx].
  - eapply Forall_impl; [|exact Hcover].
    cbn. intros x [H1 H2]. apply andb_true_intro.
    split; now apply Qle_bool_iff.
Qed.

Lemma histogram_ok (a : list Q) (bins : Z) :
  (1 <= bins)%Z -> exists h, histogram a bins = Ok h.
Proof.
  intros Hb. unfold histogram.
  destruct (Z.ltb_spec bins 1); [lia|].
  destruct (outer_edges a) as [f l]. eauto.
Qed.

End NumpyFacts.

(** ** Sorting and percentiles *)

Section PercentileFacts.

Import Numpy.

Lemma insert_sorted_In (x y : Q) (l : list Q) :
  In y (insert_sorted x l) <-> y = x \/ In y l.
Proof.
  induction l as [|z tl IH]; cbn [insert_sorted].
  - cbn. intuition.
  - destruct (Qle_bool x z); cbn [In]; [intuition|].
    rewrite IH. intuition.
Qed.

Lemma sort_In (y : Q) (a : list Q) : In y (sort a) <-> In y a.
Proof.
  induction a as [|x tl IH]; cbn [sort]; [reflexivity|].
  rewrite insert_sorted_In, IH. cbn. intuition.
Qed.

Lemma insert_sorted_length (x : Q) (l : list Q) :
  List.length (insert_sorted x l) = S (List.length l).
Proof.
  induction l as [|z tl IH]; cbn [insert_sorted]; [reflexivity|].
  destruct (Qle_bool x z); cbn [List.length]; [reflexivity|]. now rewrite IH.
Qed.

Lemma sort_length (a : list Q) : List.length (sort a) = List.length a.
Proof.
  induction a as [|x tl IH]; cbn [sort]; [reflexivity|].
  rewrite insert_sorted_length. cbn. now rewrite IH.
Qed.

Lemma insert_sorted_sorted (x : Q) (l : list Q) :
  StronglySorted Qle l -> StronglySorted Qle (insert_sorted x l).
Proof.
  induction 1 as [|z tl Hs IH Hz]; cbn [insert_sorted].
  - repeat constructor.
  - destruct (Qle_bool x z) eqn:E.
    + apply Qle_bool_iff in E. constructor; [now constructor|].
      constructor; [exact E|].
      eapply Forall_impl; [|exact Hz]. intros w Hw. now apply Qle_trans with z.
    + apply Qle_bool_false_lt, Qlt_le_weak in E.
      constructor; [exact IH|].
      rewrite Forall_forall in *. intros w Hw.
      apply insert_sorted_In in Hw. destruct Hw as [->|Hw]; auto.
Qed.

Lemma sort_sorted (a : list Q) : StronglySorted Qle (sort a).
Proof.
  induction a as [|x tl IH]; cbn [sort]; [constructor|].
  now apply insert_sorted_sorted.
Qed.

Lemma sorted_first_le (s : list Q) (y : Q) :
  StronglySorted Qle s -> In y s -> nth 0 s 0 <= y.
Proof.
  intros Hs Hy. destruct Hs as [|z tl Hs Hz]; [contradiction|].
  cbn [nth]. destruct Hy as [->|Hy]; [apply Qle_refl|].
  rewrite Forall_forall in Hz. auto.
Qed.

Lemma sorted_le_last (s : list Q) :
  StronglySorted Qle s -> forall y, In y s -> y <= nth (List.length s - 1) s 0.
Proof.
  induction 1 as [|z tl Hs IH Hz]; intros y Hy; [contradiction|].
  cbn [List.length]. rewrite Nat.sub_1_r. cbn [Nat.pred].
  destruct tl as [|w tl'].
  - destruct Hy as [->|[]]. apply Qle_refl.
  - cbn [List.length] in IH. rewrite Nat.sub_1_r in IH. cbn [Nat.pred] in IH.
    change (nth (List.length (w :: tl')) (z :: w :: tl') 0)
      with (nth (List.length tl') (w :: tl') 0).
    destruct Hy as [->|Hy]; [|auto].
    apply Qle_trans with w.
    + rewrite Forall_forall in Hz. apply Hz. now left.
    + apply IH. now left.
Qed.

(** The 0th percentile is the smallest sample. *)
Lemma percentile_sorted_0 (s : list Q) (q : Q) :
  q == 0 -> percentile_sorted s q == nth 0 s 0.
Proof.
  intros Hq. unfold percentile_sorted. cbv zeta.
  set (v := q / 100 * inject_Z (Z.of_nat (List.length s) - 1)).
  assert (Hv : v == 0) by (unfold v; rewrite Hq; field).
  assert (Hf : Qfloor v = 0%Z) by (now rewrite (Qfloor_comp _ _ Hv)).
  rewrite Hf. cbn [Z.to_nat]. setoid_rewrite Hv. ring.
Qed.

(** The 100th percentile is the largest sample. *)
Lemma percentile_sorted_100 (s : list Q) (q : Q) :
  s <> [] -> q == 100 -> percentile_sorted s q == nth (List.length s - 1) s 0.
Proof.
  intros Hs Hq. unfold percentile_sorted. cbv zeta.
  set (k := (Z.of_nat (List.length s) - 1)%Z).
  set (v := q / 100 * inject_Z k).
  assert (Hv : v == inject_Z k) by (unfold v; rewrite Hq; field).
  assert (Hf : Qfloor v = k) by (now rewrite (Qfloor_comp _ _ Hv), Qfloor_Z).
  rewrite Hf.
  assert (Hk : Z.to_nat k = (List.length s - 1)%nat) by (unfold k; lia).
  rewrite Hk.
  assert (Hlen : (0 < List.length s)%nat) by (destruct s; [congruence | cbn; lia]).
  replace (Nat.min (S (List.length s - 1)) (List.length s - 1))
    with (List.length s - 1)%nat by lia.
  setoid_rewrite Hv. ring.
Qed.

(** With percentages 0 and 100 the bounds enclose the whole population. *)
Lemma percentile2_0_100 (a : list Q) (q1 q2 vlo vup : Q) :
  q1 == 0 -> q2 == 100 -> percentile2 a q1 q2 = Ok (vlo, vup) ->
  Forall (fun x => Qle_bool vlo x = true) a /\ Forall (fun x => Qle_bool x vup = true) a.
Proof.
  intros H1 H2. unfold percentile2.
  destruct (negb (percentile_valid q1 && percentile_valid q2)); [discriminate|].
  destruct a as [|x tl] eqn:Ea; [discriminate|]. rewrite <- Ea.
  intros H. injection H as <- <-.
  assert (Hne : sort a <> []).
  { intros E. apply (f_equal (@List.length Q)) in E.
    rewrite sort_length, Ea in E. discriminate. }
  split; apply Forall_forall; intros y Hy; apply Qle_bool_iff;
    apply sort_In in Hy.
  - rewrite (percentile_sorted_0 _ _ H1).
    apply sorted_first_le; [apply sort_sorted | exact Hy].
  - rewrite (percentile_sorted_100 _ _ Hne H2).
    apply sorted_le_last; [apply sort_sorted | exact Hy].
Qed.

Lemma percentile2_ok (a : list Q) (q1 q2 : Q) :
  a <> [] -> percentile_valid q1 = true -> percentile_valid q2 = true ->
  exists vv, percentile2 a q1 q2 = Ok vv.
Proof.
  intros Ha H1 H2. unfold percentile2. rewrite H1, H2. cbn.
  destruct a; [congruence | eauto].
Qed.

Lemma percentile2_empty (q1 q2 : Q) :
  exists e, percentile2 [] q1 q2 = Raise e /\ (e = ValueError \/ e = IndexError).
Proof.
  unfold percentile2.
  destruct (negb (percentile_valid q1 && percentile_valid q2)); eauto.
Qed.

(** The documented test of the interpolation: on 1..100 the 10th and 90th
    percentiles are 10.9 and 90.1. *)
Example percentile_1_to_100 :
  match percentile2 (map (fun i => inject_Z (Z.of_nat i)) (seq 1 100)) 10 90 with
  | Ok (lo, up) => lo == 109 # 10 /\ up == 901 # 10
  | Raise _ => False
  end.
Proof. vm_compute. split; reflexivity. Qed.

End PercentileFacts.

(** ** The most common value *)

Section ModeFacts.

Import Numpy Scipy.








End ModeFacts.

(** ** The edge of an array *)

Section EdgeFacts.

Import MapShow.







End EdgeFacts.

(** ** The statistics of MapShow *)

Section ScriptFacts.

Import MapShow.

Variable np_abs : complex -> Q.
Variable np_angle : complex -> Q.
Variable legacy_compare : bool.

Local Abbreviation main := (main np_abs np_angle legacy_compare).
Local Abbreviation statistics := (statistics legacy_compare).
Local Abbreviation population := (population legacy_compare).
Local Abbreviation make_mask := (make_mask legacy_compare).
Local Abbreviation decompose := (decompose np_abs np_angle).

Lemma filter_andb {A : Type} (f g : A -> bool) (l : list A) :
  filter g (filter f l) = filter (fun x => f x && g x) l.
Proof.
  induction l as [|x tl IH]; [reflexivity|]. cbn [filter].
  destruct (f x); cbn [filter andb]; [|exact IH].
  destruct (g x); now rewrite IH.
Qed.

Lemma filter_true {A : Type} (l : list A) : filter (fun _ => true) l = l.
Proof. induction l as [|x tl IH]; cbn; congruence. Qed.

Lemma select_map (g : Q -> bool) (l : list Q) : select l (map g l) = filter g l.
Proof.
  unfold select. induction l as [|x tl IH]; [reflexivity|].
  cbn [map combine filter snd]. destruct (g x); cbn [map fst]; now rewrite IH.
Qed.

(** Lines 112-115 keep the samples within the bounds that are switched on. *)
Lemma ignore_outliers_filter (inpt : Namespace) (l : list Q) :
  ignore_outliers inpt l = filter (fun x => above_vmin inpt x && below_vmax inpt x) l.
Proof.
  unfold ignore_outliers, above_vmin, below_vmax, truthy_float.
  destruct (vmin inpt) as [lo|], (vmax inpt) as [up|];
    try destruct (Qeq_bool lo 0); try destruct (Qeq_bool up 0); cbn [negb];
    rewrite ?filter_andb; try reflexivity;
    try (rewrite <- (filter_true l) at 1; apply filter_ext; intros x; reflexivity);
    apply filter_ext; intros x; now rewrite ?andb_true_r.
Qed.

(** Lines 104-109 drop the samples equal to a numeric background. *)
Lemma ignore_background_filter (inpt : Namespace) (a : list (list Q)) (b : pyval)
    (arr : list Q) :
  ignore_background a (make_mask inpt a b) = Ok arr ->
  arr = filter (fun x => negb (is_background inpt b x)) (concat a).
Proof.
  unfold make_mask, is_background, ignore_background.
  destruct (truthy (background inpt)); cbn [andb].
  - unfold compare_eq.
    destruct b as [|s|v]; try destruct legacy_compare; try discriminate;
      intros H; injection H as <-; rewrite <- concat_map, map_map, select_map;
      apply filter_ext; intros x; reflexivity.
  - intros H. injection H as <-. now rewrite filter_true.
Qed.

(** The population handed to [np.percentile]: the samples that are neither
    background nor outside the absolute bounds, in array order. *)
Lemma population_spec (inpt : Namespace) (a : list (list Q)) (pop : list Q) :
  population inpt a = Ok pop ->
  exists b, resolve_background inpt a = Ok b
            /\ pop = filter (survives inpt b) (concat a).
Proof.
  unfold MapShow.population.
  destruct (resolve_background inpt a) as [b|e]; [|discriminate]. cbn [bind].
  destruct (ignore_background a (make_mask inpt a b)) as [arr|e] eqn:E; [|discriminate].
  cbn [bind]. intros H. injection H as <-. exists b. split; [reflexivity|].
  rewrite (ignore_background_filter _ _ _ _ E), ignore_outliers_filter, filter_andb.
  apply filter_ext. intros x. unfold survives. now rewrite andb_assoc.
Qed.

(** What a run that reaches the histogram went through. *)
Lemma statistics_inv (inpt : Namespace) (mag : option (list (list Q)))
    (a : list (list Q)) (st : state) :
  statistics inpt mag a = Ok st ->
  exists x0 pop hh,
    first_sample a = Ok x0
    /\ population inpt a = Ok pop
    /\ Numpy.percentile2 pop (pctmin inpt) (pctmax inpt) = Ok (vmin_ st, vmax_ st)
    /\ imgArray st = filter (fun x => Qle_bool x (vmax_ st))
                       (filter (fun x => Qle_bool (vmin_ st) x) pop)
    /\ Numpy.histogram (imgArray st) (nbins inpt) = Ok hh
    /\ Hvals st = fst hh /\ Hedges st = snd hh /\ Hcntrs st = centers (snd hh)
    /\ imgMag st = mag /\ img st = a
    /\ resolve_background inpt a = Ok (bg st)
    /\ mask st = make_mask inpt a (bg st).
Proof.
  unfold MapShow.statistics, MapShow.population.
  destruct (first_sample a) as [x0|e]; [|discriminate]. cbn [bind].
  destruct (resolve_background inpt a) as [b|e]; [|discriminate]. cbn [bind].
  destruct (ignore_background a (make_mask inpt a b)) as [arr|e]; [|discriminate].
  cbn [bind].
  destruct (Numpy.percentile2 _ _ _) as [[vlo vup]|e] eqn:Ep; [|discriminate].
  cbn [bind fst snd].
  destruct (Numpy.histogram _ _) as [hh|e] eqn:Eh; [|discriminate].
  cbn [bind]. intros H. injection H as <-. cbn.
  exists x0, (ignore_outliers inpt arr), hh. repeat split; assumption.
Qed.

Lemma main_inv (inpt : Namespace) (raw : ndarray) (st : state) :
  main inpt raw = Ok st ->
  exists mag a, decompose raw = (mag, WReal a) /\ statistics inpt mag a = Ok st.
Proof.
  unfold MapShow.main. destruct (decompose raw) as [mag [a|a]].
  - intros H. now exists mag, a.
  - destruct (first_sample a); discriminate.
Qed.

Lemma centers_cons (x y : Q) (tl : list Q) :
  centers (x :: y :: tl) = (x + y) / 2 :: centers (y :: tl).
Proof. reflexivity. Qed.

Lemma centers_length (e : list Q) : List.length (centers e) = (List.length e - 1)%nat.
Proof.
  induction e as [|x [|y tl] IH]; try reflexivity.
  rewrite centers_cons. cbn [List.length] in *. rewrite IH. lia.
Qed.

Lemma centers_nth (e : list Q) : forall i, (S i < List.length e)%nat ->
  nth i (centers e) 0 = (nth i e 0 + nth (S i) e 0) / 2.
Proof.
  induction e as [|x [|y tl] IH]; intros i Hi; cbn [List.length] in Hi; try lia.
  rewrite centers_cons. destruct i as [|i]; [reflexivity|].
  cbn [nth]. rewrite IH by (cbn [List.length]; lia). reflexivity.
Qed.

End ScriptFacts.

(** ** Properties of a run *)

Section Run.

Import MapShow.

Variable np_abs : complex -> Q.
Variable np_angle : complex -> Q.
Variable legacy_compare : bool.

Local Abbreviation main := (main np_abs np_angle legacy_compare).
Local Abbreviation population := (population legacy_compare).
Local Abbreviation make_mask := (make_mask legacy_compare).
Local Abbreviation decompose := (decompose np_abs np_angle).

(** C3.  In a run that reaches the histogram, [vmin] and [vmax] are the
    [pctmin] and [pctmax] percentiles of the population left by background
    masking and absolute-bound filtering; the population is then cut to
    [vmin <= x <= vmax] and the histogram is taken over the result.  With
    the percentages 0 and 100 the cut removes nothing. *)
Theorem percentile_stage (inpt : Namespace) (raw : ndarray) (st : state) :
  main inpt raw = Ok st ->
  exists pop,
    population inpt (img st) = Ok pop
    /\ pop = filter (survives inpt (bg st)) (concat (img st))
    /\ Numpy.percentile2 pop (pctmin inpt) (pctmax inpt) = Ok (vmin_ st, vmax_ st)
    /\ imgArray st = filter (fun x => Qle_bool x (vmax_ st))
                       (filter (fun x => Qle_bool (vmin_ st) x) pop)
    /\ Numpy.histogram (imgArray st) (nbins inpt) = Ok (Hvals st, Hedges st)
    /\ (pctmin inpt == 0 -> pctmax inpt == 100 -> imgArray st = pop).
Proof.
  intros Hrun. apply main_inv in Hrun. destruct Hrun as (mag & a & _ & Hst).
  apply statistics_inv in Hst.
  destruct Hst as (x0 & pop & hh & _ & Hpop & Hpct & Harr & Hh & Hv & He & _ & _ & Himg & Hbg & _).
  exists pop. rewrite Himg, Hv, He, <- surjective_pairing.
  destruct (population_spec _ _ _ _ Hpop) as (b & Hb & Hfilter).
  rewrite Hbg in Hb. injection Hb as <-.
  repeat split; try assumption.
  intros H0 H100.
  destruct (percentile2_0_100 _ _ _ _ _ H0 H100 Hpct) as [Hlo Hup].
  rewrite Harr, (filter_all (fun x => Qle_bool (vmin_ st) x) pop Hlo).
  now apply filter_all.
Qed.

(** The parser's default percentages are 0 and 100. *)
Lemma default_percentiles :
  pctmin default_options = 0 /\ pctmax default_options = 100
  /\ nbins default_options = 50%Z.
Proof. repeat split. Qed.

(** C6.  In every run that computes the histogram, the bin counts add up
    to the size of the final population, there is one more bin edge than
    bins, and each bin centre is the midpoint of its two edges. *)
Theorem histogram_invariants (inpt : Namespace) (raw : ndarray) (st : state) :
  main inpt raw = Ok st ->
  list_sum (Hvals st) = List.length (imgArray st)
  /\ List.length (Hedges st) = S (List.length (Hvals st))
  /\ List.length (Hvals st) = Z.to_nat (nbins inpt)
  /\ List.length (Hcntrs st) = List.length (Hvals st)
  /\ (forall i, (i < List.length (Hvals st))%nat ->
        nth i (Hcntrs st) 0 = (nth i (Hedges st) 0 + nth (S i) (Hedges st) 0) / 2).
Proof.
  intros Hrun. apply main_inv in Hrun. destruct Hrun as (mag & a & _ & Hst).
  apply statistics_inv in Hst.
  destruct Hst as (x0 & pop & [counts edges] & _ & _ & _ & _ & Hh & Hv & He & Hc & _).
  cbn [fst snd] in *. rewrite Hv, He, Hc.
  apply histogram_spec in Hh. destruct Hh as (_ & Hlen & Hedges & Hsum).
  repeat split; try assumption.
  - rewrite centers_length, Hedges. lia.
  - intros i Hi. apply centers_nth. lia.
Qed.

(** A band of single-precision complex samples is replaced by its phase
    before anything else, and its magnitude is kept aside untouched. *)
Lemma complex64_decomposed (inpt : Namespace) (a : list (list complex)) (st : state) :
  main inpt (Complex64 a) = Ok st ->
  imgMag st = Some (map (map np_abs) a)
  /\ img st = map (map np_angle) a
  /\ exists pop, population inpt (map (map np_angle) a) = Ok pop
                 /\ Numpy.percentile2 pop (pctmin inpt) (pctmax inpt)
                    = Ok (vmin_ st, vmax_ st).
Proof.
  intros Hrun. apply main_inv in Hrun. destruct Hrun as (mag & w & Hd & Hst).
  cbn in Hd. injection Hd as <- <-.
  apply statistics_inv in Hst.
  destruct Hst as (x0 & pop & hh & _ & Hpop & Hpct & _ & _ & _ & _ & _ & Hm & Hi & _).
  repeat split; try assumption. now exists pop.
Qed.

(** C7.  A band of double-precision complex samples fails the
    [np.complex64] test: the working array is not replaced by its phase and
    stays complex, and no magnitude is kept. *)
Theorem complex128_not_decomposed (a : list (list complex)) :
  decompose (Complex128 a) = (None, WComplex a)
  /\ decompose (Complex128 Inputs.cplx) = (None, WComplex [[(3, 4)]])
  /\ decompose (Complex64 Inputs.cplx)
     = (Some [[np_abs (3, 4)]], WReal [[np_angle (3, 4)]]).
Proof. repeat split. Qed.

Lemma first_sample_IndexError {A : Type} (a : list (list A)) (e : pyexc) :
  first_sample a = Raise e -> e = IndexError.
Proof. unfold first_sample. destruct a as [|[|? ?] ?]; congruence. Qed.

(** An empty population makes [np.percentile] fail. *)
Lemma empty_population_fails (inpt : Namespace) (a : list (list Q)) :
  population inpt a = Ok [] ->
  exists e, main inpt (Float a) = Raise e /\ (e = IndexError \/ e = ValueError).
Proof.
  unfold MapShow.population, MapShow.main, MapShow.statistics. cbn [MapShow.decompose].
  destruct (first_sample a) as [x0|e] eqn:Ef; cbn [bind].
  2:{ intros _. exists e. split; [reflexivity|].
      left. now apply (first_sample_IndexError a). }
  destruct (resolve_background inpt a) as [b|e]; [|discriminate]. cbn [bind].
  destruct (ignore_background a (make_mask inpt a b)) as [arr|e]; [|discriminate].
  cbn [bind]. intros H. injection H as ->.
  destruct (percentile2_empty (pctmin inpt) (pctmax inpt)) as [e [-> He]].
  cbn [bind]. exists e. split; [reflexivity | tauto].
Qed.

Lemma Forall_concat_all {A : Type} (P : A -> Prop) (a : list (list A)) :
  Forall (Forall P) a -> Forall P (concat a).
Proof.
  induction 1 as [|r tl Hr _ IH]; [constructor|].
  cbn [concat]. apply Forall_app. now split.
Qed.

(** A numeric background equal to every sample leaves no population. *)
Lemma all_background_population (inpt : Namespace) (a : list (list Q)) (v : Q) :
  resolve_background inpt a = Ok (PyNum v) ->
  truthy (background inpt) = true ->
  Forall (Forall (fun x => x == v)) a ->
  population inpt a = Ok [].
Proof.
  intros Hb Ht Hall. unfold MapShow.population. rewrite Hb. cbn [bind].
  destruct (ignore_background a (make_mask inpt a (PyNum v))) as [arr|e] eqn:E.
  - cbn [bind]. apply ignore_background_filter in E. f_equal.
    rewrite ignore_outliers_filter, E, filter_andb.
    apply Forall_concat_all in Hall. clear E.
    induction Hall as [|x tl Hx _ IH]; [reflexivity|].
    cbn [filter]. unfold is_background at 1. rewrite Ht.
    apply Qeq_bool_iff in Hx. rewrite Hx. exact IH.
  - unfold MapShow.make_mask in E. rewrite Ht in E. discriminate.
Qed.

(** C8, amended.  When background masking or absolute-bound filtering
    leaves no sample, the run fails in [np.percentile] (with the library's
    own exception); in particular when the resolved numeric background
    equals every sample.  When samples are left, the percentages are valid
    and there is at least one bin, the run returns normally, also if the
    percentile cut then removes every sample. *)
Theorem empty_population_raises (inpt : Namespace) (a : list (list Q)) :
  (population inpt a = Ok [] ->
     exists e, main inpt (Float a) = Raise e /\ (e = IndexError \/ e = ValueError))
  /\ (forall v, resolve_background inpt a = Ok (PyNum v) ->
        truthy (background inpt) = true ->
        Forall (Forall (fun x => x == v)) a ->
        exists e, main inpt (Float a) = Raise e /\ (e = IndexError \/ e = ValueError))
  /\ (forall x0 pop, first_sample a = Ok x0 ->
        population inpt a = Ok pop -> pop <> [] ->
        Numpy.percentile_valid (pctmin inpt) = true ->
        Numpy.percentile_valid (pctmax inpt) = true ->
        (1 <= nbins inpt)%Z ->
        exists st, main inpt (Float a) = Ok st).
Proof.
  split; [|split].
  - apply empty_population_fails.
  - intros v Hb Ht Hall. apply empty_population_fails.
    now apply all_background_population with v.
  - intros x0 pop Hx0 Hpop Hne H1 H2 Hbins.
    unfold MapShow.population in Hpop.
    unfold MapShow.main, MapShow.statistics. cbn [MapShow.decompose].
    rewrite Hx0. cbn [bind].
    destruct (resolve_background inpt a) as [b|e]; [|discriminate]. cbn [bind] in *.
    destruct (ignore_background a (make_mask inpt a b)) as [arr|e]; [|discriminate].
    cbn [bind] in *. injection Hpop as Hpop. rewrite Hpop.
    destruct (percentile2_ok pop _ _ Hne H1 H2) as [vv ->]. cbn [bind].
    match goal with |- context [Numpy.histogram ?l ?n] =>
      destruct (histogram_ok l n Hbins) as [hh ->] end.
    cbn [bind]. eauto.
Qed.




End Run.

(** ** Runs on concrete inputs *)

Import MapShow.

(** C4.  With [--background 5] the parser stores the text '5', which no
    sample equals: on the array of fives around a one, either the
    comparison yields an all-false mask and every sample stays in the
    population (nine samples, range 1 to 5, two occupied bins), or, with the
    older comparison, the run stops at [mask.reshape].  The population is
    not [1]. *)
Theorem literal_background_not_masked (np_abs np_angle : complex -> Q)
    (legacy_compare : bool) :
  from_cmdline Inputs.opts_bg_str5
  /\ match main np_abs np_angle legacy_compare Inputs.opts_bg_str5 (Float Inputs.img5) with
     | Ok st =>
         legacy_compare = false
         /\ imgArray st = [5; 5; 5; 5; 1; 5; 5; 5; 5]
         /\ vmin_ st == 1 /\ vmax_ st == 5
         /\ filter (fun c => negb (Nat.eqb c 0)) (Hvals st) = [1%nat; 8%nat]
     | Raise e => legacy_compare = true /\ e = AttributeError
     end.
Proof.
  split; [exact I|].
  destruct legacy_compare; vm_compute; repeat split; reflexivity.
Qed.

(** Had the background been the number 5, the population would be [1],
    both bounds 1, and the single sample in one bin. *)
Lemma numeric_background_masked (np_abs np_angle : complex -> Q)
    (legacy_compare : bool) :
  match main np_abs np_angle legacy_compare Inputs.opts_bg_num5 (Float Inputs.img5) with
  | Ok st =>
      imgArray st = [1] /\ vmin_ st == 1 /\ vmax_ st == 1
      /\ filter (fun c => negb (Nat.eqb c 0)) (Hvals st) = [1%nat]
  | Raise _ => False
  end.
Proof. vm_compute. repeat split; reflexivity. Qed.

(** C8, as stated, fails: with [--pctmin 100 --pctmax 0] on the samples 1
    and 2 the percentile cut removes every sample, and the run still
    returns a histogram (of five empty bins) without raising. *)
Lemma refilter_empty_no_error :
  exists st,
    main Inputs.abs0 Inputs.angle0 false Inputs.opts_pct_swapped (Float [[1; 2]]) = Ok st
    /\ population false Inputs.opts_pct_swapped [[1; 2]] = Ok [1; 2]
    /\ imgArray st = []
    /\ Hvals st = [0; 0; 0; 0; 0]%nat.
Proof. eexists. repeat split. Qed.

(** C3 on the samples 1 and 2 with the default percentages. *)
Lemma percentile_stage_witness :
  exists st,
    main Inputs.abs0 Inputs.angle0 false Inputs.opts_small (Float [[1; 2]]) = Ok st
    /\ exists pop,
         population false Inputs.opts_small (img st) = Ok pop
         /\ pop = filter (survives Inputs.opts_small (bg st)) (concat (img st))
         /\ Numpy.percentile2 pop (pctmin Inputs.opts_small) (pctmax Inputs.opts_small)
            = Ok (vmin_ st, vmax_ st)
         /\ imgArray st = filter (fun x => Qle_bool x (vmax_ st))
                            (filter (fun x => Qle_bool (vmin_ st) x) pop)
         /\ Numpy.histogram (imgArray st) (nbins Inputs.opts_small) = Ok (Hvals st, Hedges st)
         /\ (pctmin Inputs.opts_small == 0 -> pctmax Inputs.opts_small == 100 ->
             imgArray st = pop).
Proof.
  eexists. split; [vm_compute; reflexivity|].
  apply (percentile_stage Inputs.abs0 Inputs.angle0 false Inputs.opts_small (Float [[1; 2]])).
  vm_compute. reflexivity.
Defined.

(** C6 on the samples 1 and 2 with two bins. *)
Lemma histogram_invariants_witness :
  exists st,
    main Inputs.abs0 Inputs.angle0 false Inputs.opts_small (Float [[1; 2]]) = Ok st
    /\ list_sum (Hvals st) = List.length (imgArray st)
    /\ List.length (Hedges st) = S (List.length (Hvals st))
    /\ List.length (Hvals st) = Z.to_nat (nbins Inputs.opts_small)
    /\ List.length (Hcntrs st) = List.length (Hvals st)
    /\ (forall i, (i < List.length (Hvals st))%nat ->
          nth i (Hcntrs st) 0 = (nth i (Hedges st) 0 + nth (S i) (Hedges st) 0) / 2).
Proof.
  eexists. split; [vm_compute; reflexivity|].
  apply (histogram_invariants Inputs.abs0 Inputs.angle0 false Inputs.opts_small (Float [[1; 2]])).
  vm_compute. reflexivity.
Defined.

(** C8, amended, on an array of fives with [--background auto] (no sample
    is left) and on the samples 1 and 2 with swapped percentages (the run
    returns). *)
Lemma empty_population_raises_witness :
  (exists e, main Inputs.abs0 Inputs.angle0 false Inputs.opts_bg_auto (Float [[5; 5]; [5; 5]])
             = Raise e /\ (e = IndexError \/ e = ValueError))
  /\ (exists st, main Inputs.abs0 Inputs.angle0 false Inputs.opts_pct_swapped (Float [[1; 2]])
                 = Ok st).
Proof.
  split.
  - apply (proj1 (proj2 (empty_population_raises Inputs.abs0 Inputs.angle0 false
                           Inputs.opts_bg_auto [[5; 5]; [5; 5]])) 5).
    + vm_compute. reflexivity.
    + vm_compute. reflexivity.
    + repeat constructor.
  - apply (proj2 (proj2 (empty_population_raises Inputs.abs0 Inputs.angle0 false
                           Inputs.opts_pct_swapped [[1; 2]])) 1 [1; 2]).
    + reflexivity.
    + vm_compute. reflexivity.
    + discriminate.
    + vm_compute. reflexivity.
    + vm_compute. reflexivity.
    + vm_compute. discriminate.
Defined.


(** C2, amended, at the transform with a positive y step on a 1 x 1
    raster: the [GDALtransform] extent is in order. *)
Lemma extent_normalized_witness :
  let g := InsarFormatting.GDALtransform_init Inputs.south_up (1%Z, 1%Z) in
  InsarFormatting.xmin g <= InsarFormatting.xmax g
  /\ InsarFormatting.ymin g <= InsarFormatting.ymax g
  /\ InsarFormatting.extent g
     = (InsarFormatting.xmin g, InsarFormatting.xmax g,
        InsarFormatting.ymin g, InsarFormatting.ymax g).
Proof.
  exact (proj1 (extent_normalized Inputs.south_up 1 1)).
Defined.

(** ** Further properties of the geographic transform *)

Section GeoTransformMore.

Import InsarFormatting.

Lemma py_int_nonneg (q : Q) : 0 <= q -> py_int q = Qfloor q.
Proof.
  destruct q as [a b]. unfold Qle, py_int, Qfloor. cbn. intros H.
  apply Z.quot_div_nonneg; lia.
Qed.

Lemma py_int_opp (q : Q) : py_int (- q) = (- py_int q)%Z.
Proof.
  destruct q as [a b]. unfold py_int. cbn. apply Z.quot_opp_l. discriminate.
Qed.

Lemma py_int_nonpos (q : Q) : q <= 0 -> py_int q = (- Qfloor (- q))%Z.
Proof.
  destruct q as [a b]. unfold Qle, py_int, Qfloor. cbn. intros H.
  rewrite <- (Z.opp_involutive a) at 1. rewrite Z.quot_opp_l by discriminate.
  f_equal. apply Z.quot_div_nonneg; lia.
Qed.

Lemma py_int_comp (q r : Q) : q == r -> py_int q = py_int r.
Proof.
  intros E. destruct (Qlt_le_dec q 0) as [H|H].
  - rewrite !py_int_nonpos by lra. f_equal. apply Qfloor_comp. now rewrite E.
  - rewrite !py_int_nonneg by lra. now apply Qfloor_comp.
Qed.

Lemma Qfloor_unit (q : Q) : 0 <= q -> q < 1 -> Qfloor q = 0%Z.
Proof.
  intros Hlo Hhi.
  pose proof (Qfloor_le q) as Hfl. pose proof (Qlt_floor q) as Hfu.
  rewrite inject_Z_plus in Hfu. change (inject_Z 1) with 1 in Hfu.
  assert (Ha : inject_Z (Qfloor q) < inject_Z 1) by (change (inject_Z 1) with 1; lra).
  assert (Hb : inject_Z (-1) < inject_Z (Qfloor q))
    by (change (inject_Z (-1)) with (- (1)); lra).
  rewrite <- Zlt_Qlt in Ha, Hb. lia.
Qed.

Lemma py_int_small (q : Q) : - (1) < q -> q < 1 -> py_int q = 0%Z.
Proof.
  intros Hlo Hhi. destruct (Qlt_le_dec q 0) as [H|H].
  - rewrite py_int_nonpos by lra. rewrite Qfloor_unit by lra. reflexivity.
  - rewrite py_int_nonneg by lra. apply Qfloor_unit; lra.
Qed.

Variable tnsf : geotransform.

Local Abbreviation left_ := (tnsf0 tnsf).
Local Abbreviation dx := (tnsf1 tnsf).
Local Abbreviation top_ := (tnsf3 tnsf).
Local Abbreviation dy := (tnsf5 tnsf).

Lemma coords2px_value (lon lat : Q) :
  ~ dx == 0 -> ~ dy == 0 ->
  coords2px tnsf lon lat = Ok (py_int ((lon - left_) / dx), py_int ((top_ - lat) / dy)).
Proof.
  intros Hx Hy. unfold coords2px. cbv zeta.
  now rewrite (py_truediv_ok _ _ Hx), (py_truediv_ok _ _ Hy).
Qed.

(** X1.  For a positive x step and a longitude at or right of the left
    edge, [coords2px] returns the column of the pixel that contains the
    longitude: the column is non-negative and the longitude lies between
    the left edges of that column and of the next. *)
Theorem coords2px_column_contains (lon lat : Q) :
  0 < dx -> left_ <= lon -> ~ dy == 0 ->
  exists px py,
    coords2px tnsf lon lat = Ok (px, py)
    /\ (0 <= px)%Z
    /\ left_ + inject_Z px * dx <= lon
    /\ lon < left_ + (inject_Z px + 1) * dx.
Proof.
  intros Hdx Hlon Hdy.
  assert (Hx : ~ dx == 0) by lra.
  rewrite (coords2px_value lon lat Hx Hdy).
  set (q := (lon - left_) / dx).
  assert (Hq : q * dx == lon - left_) by (unfold q; field; exact Hx).
  assert (Hq0 : 0 <= q) by (unfold q; apply Qle_shift_div_l; [exact Hdx | lra]).
  exists (py_int q), (py_int ((top_ - lat) / dy)).
  rewrite (py_int_nonneg q Hq0).
  pose proof (Qfloor_le q) as Hfl. pose proof (Qlt_floor q) as Hfu.
  rewrite inject_Z_plus in Hfu. change (inject_Z 1) with 1 in Hfu.
  repeat split.
  - rewrite <- (Qfloor_Z 0). now apply Qfloor_resp_le.
  - nra.
  - nra.
Qed.

(** X2.  [int()] truncates toward zero: every longitude less than one
    pixel width away from the left edge, on either side of it, is given
    column 0. *)
Theorem coords2px_truncates_toward_zero (lon lat : Q) :
  0 < dx -> left_ - dx < lon -> lon < left_ + dx -> ~ dy == 0 ->
  exists py, coords2px tnsf lon lat = Ok (0%Z, py).
Proof.
  intros Hdx Hlo Hhi Hdy.
  assert (Hx : ~ dx == 0) by lra.
  rewrite (coords2px_value lon lat Hx Hdy).
  exists (py_int ((top_ - lat) / dy)). f_equal. f_equal.
  apply py_int_small.
  - apply Qlt_shift_div_l; [exact Hdx | lra].
  - apply Qlt_shift_div_r; [exact Hdx | lra].
Qed.

(** X3.  The row returned by [coords2px] is the negated row of the pixel
    that contains the latitude: when the latitude lies [r >= 0] rows from
    the top edge (in the direction of the y step), the result is
    [- floor r]. *)
Theorem coords2px_row_negated (lon lat : Q) :
  ~ dx == 0 -> ~ dy == 0 -> 0 <= (lat - top_) / dy ->
  exists px,
    coords2px tnsf lon lat = Ok (px, (- Qfloor ((lat - top_) / dy))%Z).
Proof.
  intros Hx Hy Hr. rewrite (coords2px_value lon lat Hx Hy).
  exists (py_int ((lon - left_) / dx)). f_equal. f_equal.
  rewrite (py_int_comp _ (- ((lat - top_) / dy))) by (field; exact Hy).
  rewrite py_int_opp. f_equal. now apply py_int_nonneg.
Qed.

(** The edges returned by [transform2extent] are the map coordinates
    of the pixel corners (0, 0) and (N, M) as given by [px2coords]. *)
Lemma transform2extent_corners (M N : Z) :
  let '(l, r, b, t) := transform2extent tnsf M N in
  fst (px2coords tnsf 0 0) == l /\ snd (px2coords tnsf 0 0) == t
  /\ fst (px2coords tnsf (inject_Z N) (inject_Z M)) == r
  /\ snd (px2coords tnsf (inject_Z N) (inject_Z M)) == b.
Proof. cbn. repeat split; ring. Qed.

Lemma np_min2_spec (a b : Q) : np_min2 a b <= a /\ np_min2 a b <= b.
Proof.
  unfold np_min2. destruct (Qle_bool a b) eqn:E.
  - apply Qle_bool_iff in E. lra.
  - apply Qle_bool_false_lt in E. lra.
Qed.

Lemma np_max2_spec (a b : Q) : a <= np_max2 a b /\ b <= np_max2 a b.
Proof.
  unfold np_max2. destruct (Qle_bool a b) eqn:E.
  - apply Qle_bool_iff in E. lra.
  - apply Qle_bool_false_lt in E. lra.
Qed.

(** X4.  The extent of [GDALtransform] contains the map coordinates of
    every position of the raster: for [0 <= px <= n] and [0 <= py <= m],
    whatever the signs of the steps. *)
Theorem GDALtransform_extent_contains (M N : Z) (px py : Q) :
  0 <= px -> px <= inject_Z N -> 0 <= py -> py <= inject_Z M ->
  let g := GDALtransform_init tnsf (M, N) in
  xmin g <= fst (px2coords tnsf px py) /\ fst (px2coords tnsf px py) <= xmax g
  /\ ymin g <= snd (px2coords tnsf px py) /\ snd (px2coords tnsf px py) <= ymax g.
Proof.
  intros Hx0 HxN Hy0 HyM. cbn.
  destruct (np_min2_spec (left_ + inject_Z N * dx) left_) as [Hx1 Hx2].
  destruct (np_max2_spec (left_ + inject_Z N * dx) left_) as [Hx3 Hx4].
  destruct (np_min2_spec (top_ + inject_Z M * dy) top_) as [Hy1 Hy2].
  destruct (np_max2_spec (top_ + inject_Z M * dy) top_) as [Hy3 Hy4].
  destruct (Qlt_le_dec dx 0), (Qlt_le_dec dy 0); repeat split; nra.
Qed.

(** X5.  The extent of [GDALtransform] is as wide as [n] pixels and as high
    as [m] pixels: [xmax - xmin = |n * xstep|] and [ymax - ymin = |m * ystep|]. *)
Theorem GDALtransform_extent_size (M N : Z) :
  let g := GDALtransform_init tnsf (M, N) in
  xmax g - xmin g == Qabs (inject_Z N * dx)
  /\ ymax g - ymin g == Qabs (inject_Z M * dy).
Proof.
  unfold GDALtransform_init. cbn [xmax xmin ymax ymin fst snd].
  unfold np_min2, np_max2. split.
  - destruct (Qle_bool (left_ + inject_Z N * dx) left_) eqn:E.
    + apply Qle_bool_iff in E. rewrite Qabs_neg by lra. ring.
    + apply Qle_bool_false_lt in E. rewrite Qabs_pos by lra. ring.
  - destruct (Qle_bool (top_ + inject_Z M * dy) top_) eqn:E.
    + apply Qle_bool_iff in E. rewrite Qabs_neg by lra. ring.
    + apply Qle_bool_false_lt in E. rewrite Qabs_pos by lra. ring.
Qed.

(** X6.  For a raster whose columns run eastward and whose rows run
    southward ([dx * N >= 0], [dy * M <= 0]) the three extents agree:
    [GDALtransform] gives the edges of [transform2extent] and of the viewer. *)
Theorem north_up_extents_agree (M N : Z) :
  0 <= dx * inject_Z N -> dy * inject_Z M <= 0 ->
  let g := GDALtransform_init tnsf (M, N) in
  let '(l, r, b, t) := transform2extent tnsf M N in
  let '(l', r', b', t') := MapShow.extent tnsf M N in
  (xmin g == l /\ xmax g == r /\ ymin g == b /\ ymax g == t)
  /\ (l' == l /\ r' == r /\ b' == b /\ t' == t).
Proof.
  intros Hx Hy. cbn. unfold np_min2, np_max2.
  destruct (Qle_bool (left_ + inject_Z N * dx) left_) eqn:Ex;
    [apply Qle_bool_iff in Ex | apply Qle_bool_false_lt in Ex];
    (destruct (Qle_bool (top_ + inject_Z M * dy) top_) eqn:Ey;
     [apply Qle_bool_iff in Ey | apply Qle_bool_false_lt in Ey]);
    repeat split; lra.
Qed.

End GeoTransformMore.

(** In the [GDALtransform] constructor a dataset overrides the other
    two arguments; without a dataset the constructor succeeds exactly when
    both a transform and a shape are passed, and raises [TypeError]
    otherwise.  The dataset's sizes are read as (rows, columns). *)
Lemma GDALtransform_new_cases (DS : option Construct.dataset)
    (transform : option InsarFormatting.geotransform) (shape : option (Z * Z)) :
  (forall d, DS = Some d ->
     Construct.GDALtransform_new DS transform shape
     = Ok (InsarFormatting.GDALtransform_init (Construct.GetGeoTransform d)
             (Construct.RasterYSize d, Construct.RasterXSize d)))
  /\ (DS = None ->
      (Construct.GDALtransform_new DS transform shape = Raise TypeError
       <-> transform = None \/ shape = None)
      /\ (forall t sh, transform = Some t -> shape = Some sh ->
            Construct.GDALtransform_new DS transform shape
            = Ok (InsarFormatting.GDALtransform_init t sh))).
Proof.
  split.
  - intros d ->. reflexivity.
  - intros ->. split.
    + destruct transform, shape; cbn; split; intros H;
        try discriminate; try destruct H; try discriminate; auto.
    + intros t sh -> ->. reflexivity.
Qed.

(** ** Further properties of a run *)

Section RunMore.

Import MapShow.

Variable np_abs : complex -> Q.
Variable np_angle : complex -> Q.
Variable legacy_compare : bool.

Local Abbreviation main := (main np_abs np_angle legacy_compare).
Local Abbreviation statistics := (statistics legacy_compare).
Local Abbreviation population := (population legacy_compare).
Local Abbreviation make_mask := (make_mask legacy_compare).

Lemma resolve_background_literal (inpt : Namespace) (a : list (list Q)) (s : string) :
  background inpt = PyStr s -> s <> "auto"%string ->
  resolve_background inpt a = Ok (PyStr s).
Proof.
  intros Hb Hs. unfold resolve_background. rewrite Hb.
  destruct (String.eqb_spec s "auto"); [contradiction | reflexivity].
Qed.

Lemma truthy_literal (s : string) : s <> ""%string -> truthy (PyStr s) = true.
Proof. intros Hs. cbn. now destruct (String.eqb_spec s ""). Qed.

(** X8.  A literal background given on the command line (any text other
    than 'auto') never masks a sample.  With the elementwise comparison the
    population is the one of a run without [--background]; with the older
    comparison every run on a non-empty band stops with [AttributeError]. *)
Theorem literal_background_masks_nothing (inpt : Namespace) (a : list (list Q))
    (s : string) :
  background inpt = PyStr s -> s <> "auto"%string -> s <> ""%string ->
  (legacy_compare = false ->
     population inpt a = Ok (ignore_outliers inpt (concat a))
     /\ population inpt a = population (set_background PyNone inpt) a)
  /\ (legacy_compare = true ->
      forall x0, first_sample a = Ok x0 -> main inpt (Float a) = Raise AttributeError).
Proof.
  intros Hb Hauto Hne.
  pose proof (resolve_background_literal inpt a s Hb Hauto) as Hr.
  pose proof (truthy_literal s Hne) as Ht. rewrite <- Hb in Ht.
  split.
  - intros Hl.
    assert (H1 : population inpt a = Ok (ignore_outliers inpt (concat a))).
    { unfold MapShow.population. rewrite Hr. cbn [bind].
      unfold MapShow.make_mask, compare_eq. rewrite Ht, Hl.
      unfold ignore_background. cbn [bind]. f_equal. f_equal.
      rewrite <- concat_map, map_map, select_map. apply filter_true. }
    split; [exact H1|]. rewrite H1. reflexivity.
  - intros Hl x0 Hx0. unfold MapShow.main, MapShow.statistics. cbn [decompose].
    rewrite Hx0, Hr. cbn [bind].
    unfold MapShow.make_mask, compare_eq. rewrite Ht, Hl. reflexivity.
Qed.

(** X9.  Every sample of the histogram population comes from the working
    array, lies between [vmin] and [vmax], respects the absolute bounds that
    are switched on, and differs from a numeric background when masking is
    on: no background sample is ever counted. *)
Theorem final_population_sound (inpt : Namespace) (raw : ndarray) (st : state) :
  main inpt raw = Ok st ->
  Forall (fun x =>
            In x (concat (img st))
            /\ vmin_ st <= x /\ x <= vmax_ st
            /\ above_vmin inpt x = true /\ below_vmax inpt x = true
            /\ (forall v, bg st = PyNum v -> truthy (background inpt) = true -> ~ x == v))
         (imgArray st).
Proof.
  intros Hrun. apply main_inv in Hrun. destruct Hrun as (mag & a & _ & Hst).
  apply statistics_inv in Hst.
  destruct Hst as (x0 & pop & hh & _ & Hpop & _ & Harr & _ & _ & _ & _ & _ & Himg & Hbg & _).
  destruct (population_spec _ _ _ _ Hpop) as (b & Hb & Hfilter).
  rewrite Hbg in Hb. injection Hb as <-.
  rewrite Harr, Himg, Hfilter. apply Forall_forall. intros x Hx.
  apply filter_In in Hx. destruct Hx as [Hx Hup].
  apply filter_In in Hx. destruct Hx as [Hx Hlo].
  apply filter_In in Hx. destruct Hx as [Hx Hs].
  apply Qle_bool_iff in Hup, Hlo. unfold survives in Hs.
  apply andb_prop in Hs. destruct Hs as [Hs Hvmax].
  apply andb_prop in Hs. destruct Hs as [Hnb Hvmin].
  repeat split; try assumption.
  intros v Hv Ht Hxv. unfold is_background in Hnb. rewrite Hv, Ht in Hnb.
  apply Qeq_bool_iff in Hxv. rewrite Hxv in Hnb. discriminate.
Qed.

(** The order in which a run on a real band fails: a band without a
    first sample raises [IndexError]; otherwise, once the population is
    built, percentages outside 0..100 raise [ValueError], then an empty
    population raises [IndexError], then a bin count below 1 raises
    [ValueError]; in every other case the run returns. *)
Lemma failure_order (inpt : Namespace) (a : list (list Q)) :
  (forall e, first_sample a = Raise e -> main inpt (Float a) = Raise IndexError)
  /\ (forall x0 pop, first_sample a = Ok x0 -> population inpt a = Ok pop ->
        if negb (Numpy.percentile_valid (pctmin inpt) && Numpy.percentile_valid (pctmax inpt))
        then main inpt (Float a) = Raise ValueError
        else match pop with
             | [] => main inpt (Float a) = Raise IndexError
             | _ :: _ =>
                 if (nbins inpt <? 1)%Z
                 then main inpt (Float a) = Raise ValueError
                 else exists st, main inpt (Float a) = Ok st
             end).
Proof.
  split.
  - intros e He. unfold MapShow.main, MapShow.statistics. cbn [decompose].
    rewrite He. cbn [bind]. f_equal. now apply (first_sample_IndexError a).
  - intros x0 pop Hx0 Hpop. unfold MapShow.population in Hpop.
    unfold MapShow.main, MapShow.statistics. cbn [decompose].
    rewrite Hx0. cbn [bind].
    destruct (resolve_background inpt a) as [b|e]; [|discriminate]. cbn [bind] in *.
    destruct (ignore_background a (make_mask inpt a b)) as [arr|e]; [|discriminate].
    cbn [bind] in *. injection Hpop as ->.
    unfold Numpy.percentile2.
    destruct (negb (Numpy.percentile_valid (pctmin inpt)
                    && Numpy.percentile_valid (pctmax inpt))); cbv beta iota;
      [reflexivity|].
    destruct pop as [|y tl]; cbv beta iota; [reflexivity|].
    cbn [bind fst snd]. unfold Numpy.histogram.
    destruct (nbins inpt <? 1)%Z; cbv beta iota; [reflexivity|].
    destruct (Numpy.outer_edges _) as [f l]. cbn [bind]. eauto.
Qed.

(** The statistics of a single-precision complex band are those of
    its phase: the run is the run on the real band of the phases, with the
    magnitude stored beside it. *)
Lemma complex64_runs_on_phase (inpt : Namespace) (a : list (list complex)) :
  match main inpt (Float (map (map np_angle) a)) with
  | Ok st =>
      main inpt (Complex64 a)
      = Ok (mkState (Some (map (map np_abs) a)) (img st) (bg st) (mask st) (imgArray st)
              (vmin_ st) (vmax_ st) (Hvals st) (Hedges st) (Hcntrs st))
      /\ imgMag st = None
  | Raise e => main inpt (Complex64 a) = Raise e
  end.
Proof.
  unfold MapShow.main, MapShow.statistics. cbn [decompose].
  destruct (first_sample (map (map np_angle) a)); [|reflexivity]. cbn [bind].
  destruct (resolve_background inpt _) as [b|e]; [|reflexivity]. cbn [bind].
  destruct (ignore_background _ _) as [arr|e]; [|reflexivity]. cbn [bind].
  destruct (Numpy.percentile2 _ _ _) as [vv|e]; [|reflexivity]. cbn [bind].
  destruct (Numpy.histogram _ _) as [hh|e]; [|reflexivity]. cbn [bind].
  split; reflexivity.
Qed.

End RunMore.

(** ** The display range *)

Section DisplayRange.

Import Numpy MapShow.

Lemma sorted_nth_le (s : list Q) :
  StronglySorted Qle s ->
  forall i j, (i <= j)%nat -> (j < List.length s)%nat -> nth i s 0 <= nth j s 0.
Proof.
  induction 1 as [|z tl Hs IH Hz]; intros i j Hij Hj; [cbn in Hj; lia|].
  destruct j as [|j]; [replace i with 0%nat by lia; apply Qle_refl|].
  cbn [List.length] in Hj. destruct i as [|i].
  - cbn [nth]. rewrite Forall_forall in Hz. apply Hz. apply nth_In. lia.
  - cbn [nth]. apply IH; lia.
Qed.

(** The shape of the interpolation: the value lies at fraction [g] between
    the sorted samples number [lo] and [hi]. *)
Lemma percentile_sorted_shape (s : list Q) (q : Q) :
  s <> [] -> percentile_valid q = true ->
  exists lo g,
    let hi := Nat.min (S lo) (List.length s - 1) in
    (lo < List.length s)%nat
    /\ 0 <= g /\ g < 1
    /\ inject_Z (Z.of_nat lo) + g == q / 100 * inject_Z (Z.of_nat (List.length s) - 1)
    /\ percentile_sorted s q = nth lo s 0 + g * (nth hi s 0 - nth lo s 0).
Proof.
  intros Hs Hq. unfold percentile_valid in Hq.
  apply andb_prop in Hq. destruct Hq as [Hq0 Hq1]. apply Qle_bool_iff in Hq0, Hq1.
  assert (Hn : (0 < List.length s)%nat) by (destruct s; [congruence | cbn; lia]).
  set (n := List.length s) in *.
  set (v := q / 100 * inject_Z (Z.of_nat n - 1)).
  assert (Hk : 0 <= inject_Z (Z.of_nat n - 1)).
  { change 0 with (inject_Z 0). rewrite <- Zle_Qle. lia. }
  assert (Hp : 0 <= q / 100 /\ q / 100 <= 1).
  { split; [apply Qle_shift_div_l | apply Qle_shift_div_r]; lra. }
  assert (Hv0 : 0 <= v) by (unfold v; nra).
  assert (Hv1 : v <= inject_Z (Z.of_nat n - 1)) by (unfold v; nra).
  assert (Hf0 : (0 <= Qfloor v)%Z).
  { rewrite <- (Qfloor_Z 0). now apply Qfloor_resp_le. }
  assert (Hf1 : (Qfloor v <= Z.of_nat n - 1)%Z).
  { rewrite <- (Qfloor_Z (Z.of_nat n - 1)). now apply Qfloor_resp_le. }
  exists (Z.to_nat (Qfloor v)), (v - inject_Z (Qfloor v)). cbv zeta.
  pose proof (Qfloor_le v) as Hfl. pose proof (Qlt_floor v) as Hfu.
  rewrite inject_Z_plus in Hfu. change (inject_Z 1) with 1 in Hfu.
  repeat split.
  - lia.
  - lra.
  - lra.
  - rewrite Z2Nat.id by exact Hf0. fold v. ring.
Qed.

Lemma percentile_sorted_between (s : list Q) (q : Q) :
  s <> [] -> StronglySorted Qle s -> percentile_valid q = true ->
  exists lo hi,
    (lo <= hi)%nat /\ (hi < List.length s)%nat
    /\ nth lo s 0 <= percentile_sorted s q /\ percentile_sorted s q <= nth hi s 0.
Proof.
  intros Hs Hsorted Hq.
  destruct (percentile_sorted_shape s q Hs Hq) as (lo & g & Hlo & Hg0 & Hg1 & _ & ->).
  exists lo, (Nat.min (S lo) (List.length s - 1)).
  assert (Hle : nth lo s 0 <= nth (Nat.min (S lo) (List.length s - 1)) s 0)
    by (apply sorted_nth_le; [exact Hsorted | lia | lia]).
  repeat split; try lia; nra.
Qed.

(** Percentiles grow with the percentage. *)
Lemma percentile_sorted_monotone (s : list Q) (q1 q2 : Q) :
  s <> [] -> StronglySorted Qle s ->
  percentile_valid q1 = true -> percentile_valid q2 = true -> q1 <= q2 ->
  percentile_sorted s q1 <= percentile_sorted s q2.
Proof.
  intros Hs Hsorted H1 H2 Hq.
  destruct (percentile_sorted_shape s q1 Hs H1) as (lo1 & g1 & Hlo1 & Hg10 & Hg11 & Hv1 & ->).
  destruct (percentile_sorted_shape s q2 Hs H2) as (lo2 & g2 & Hlo2 & Hg20 & Hg21 & Hv2 & ->).
  set (n := List.length s) in *.
  assert (Hk : 0 <= inject_Z (Z.of_nat n - 1)).
  { change 0 with (inject_Z 0). rewrite <- Zle_Qle. lia. }
  assert (Hvv : inject_Z (Z.of_nat lo1) + g1 <= inject_Z (Z.of_nat lo2) + g2).
  { rewrite Hv1, Hv2. apply Qmult_le_compat_r; [|exact Hk].
    apply Qmult_le_compat_r; [exact Hq | discriminate]. }
  assert (Hlo : (lo1 <= lo2)%nat).
  { assert (H : inject_Z (Z.of_nat lo1) < inject_Z (Z.of_nat lo2 + 1)).
    { rewrite inject_Z_plus. change (inject_Z 1) with 1. lra. }
    rewrite <- Zlt_Qlt in H. lia. }
  assert (Hd1 : nth lo1 s 0 <= nth (Nat.min (S lo1) (n - 1)) s 0)
    by (apply sorted_nth_le; [exact Hsorted | lia | lia]).
  assert (Hd2 : nth lo2 s 0 <= nth (Nat.min (S lo2) (n - 1)) s 0)
    by (apply sorted_nth_le; [exact Hsorted | lia | lia]).
  destruct (Nat.eq_dec lo1 lo2) as [->|Hne].
  - assert (Hg : g1 <= g2) by lra. nra.
  - assert (Hmid : nth (Nat.min (S lo1) (n - 1)) s 0 <= nth lo2 s 0)
      by (apply sorted_nth_le; [exact Hsorted | lia | lia]).
    nra.
Qed.

Variable np_abs : complex -> Q.
Variable np_angle : complex -> Q.
Variable legacy_compare : bool.

Local Abbreviation main := (main np_abs np_angle legacy_compare).
Local Abbreviation population := (population legacy_compare).

Lemma percentile2_inv (a : list Q) (q1 q2 vlo vup : Q) :
  percentile2 a q1 q2 = Ok (vlo, vup) ->
  a <> [] /\ percentile_valid q1 = true /\ percentile_valid q2 = true
  /\ vlo = percentile_sorted (sort a) q1 /\ vup = percentile_sorted (sort a) q2.
Proof.
  unfold percentile2.
  destruct (percentile_valid q1), (percentile_valid q2); try discriminate.
  destruct a; [discriminate|]. cbn. intros H. injection H as <- <-.
  repeat split. discriminate.
Qed.

Lemma sort_nonempty (a : list Q) : a <> [] -> sort a <> [].
Proof.
  intros Ha E. apply (f_equal (@List.length Q)) in E.
  rewrite sort_length in E. destruct a; [congruence | discriminate].
Qed.

(** X12.  Whenever the lower percentage does not exceed the upper one, the
    display range is in order: [vmin <= vmax]. *)
Theorem display_range_ordered (inpt : Namespace) (raw : ndarray) (st : state) :
  main inpt raw = Ok st -> pctmin inpt <= pctmax inpt -> vmin_ st <= vmax_ st.
Proof.
  intros Hrun Hq. apply main_inv in Hrun. destruct Hrun as (mag & a & _ & Hst).
  apply statistics_inv in Hst.
  destruct Hst as (x0 & pop & hh & _ & _ & Hpct & _).
  apply percentile2_inv in Hpct. destruct Hpct as (Hne & H1 & H2 & -> & ->).
  apply percentile_sorted_monotone; auto using sort_nonempty, sort_sorted.
Qed.

(** X13.  Both ends of the display range lie between two samples of the
    population the percentiles are taken from; the range never leaves the
    data. *)
Theorem display_range_within_population (inpt : Namespace) (raw : ndarray) (st : state) :
  main inpt raw = Ok st ->
  exists pop, population inpt (img st) = Ok pop
    /\ (exists x y, In x pop /\ In y pop /\ x <= vmin_ st /\ vmin_ st <= y)
    /\ (exists x y, In x pop /\ In y pop /\ x <= vmax_ st /\ vmax_ st <= y).
Proof.
  intros Hrun. apply main_inv in Hrun. destruct Hrun as (mag & a & _ & Hst).
  apply statistics_inv in Hst.
  destruct Hst as (x0 & pop & hh & _ & Hpop & Hpct & _ & _ & _ & _ & _ & _ & Himg & _).
  exists pop. rewrite Himg. split; [exact Hpop|].
  apply percentile2_inv in Hpct. destruct Hpct as (Hne & H1 & H2 & -> & ->).
  pose proof (sort_nonempty pop Hne) as Hs. pose proof (sort_sorted pop) as Hsorted.
  split.
  - destruct (percentile_sorted_between _ _ Hs Hsorted H1) as (lo & hi & Hlh & Hhi & Ha & Hb).
    exists (nth lo (sort pop) 0), (nth hi (sort pop) 0).
    repeat split; try assumption; apply sort_In; apply nth_In; lia.
  - destruct (percentile_sorted_between _ _ Hs Hsorted H2) as (lo & hi & Hlh & Hhi & Ha & Hb).
    exists (nth lo (sort pop) 0), (nth hi (sort pop) 0).
    repeat split; try assumption; apply sort_In; apply nth_In; lia.
Qed.

(** X14.  With no bounds, no background and the percentages 0 and 100 (the
    parser defaults), a run on a real band with at least one sample and at
    least one bin returns; every sample of the band is in the histogram
    population, and [vmin], [vmax] enclose all of them. *)
Theorem default_run_keeps_everything (inpt : Namespace) (a : list (list Q)) (x0 : Q) :
  vmin inpt = None -> vmax inpt = None -> background inpt = PyNone ->
  pctmin inpt == 0 -> pctmax inpt == 100 -> (1 <= nbins inpt)%Z ->
  first_sample a = Ok x0 ->
  exists st,
    main inpt (Float a) = Ok st
    /\ imgArray st = concat a
    /\ Forall (fun x => vmin_ st <= x /\ x <= vmax_ st) (concat a)
    /\ list_sum (Hvals st) = List.length (concat a).
Proof.
  intros Hvmin Hvmax Hbg H0 H100 Hbins Hx0.
  assert (Hne : concat a <> []).
  { unfold first_sample in Hx0. destruct a as [|[|y r] tl]; discriminate. }
  assert (Hv1 : percentile_valid (pctmin inpt) = true).
  { unfold percentile_valid. apply andb_true_intro.
    split; apply Qle_bool_iff; rewrite H0; discriminate. }
  assert (Hv2 : percentile_valid (pctmax inpt) = true).
  { unfold percentile_valid. apply andb_true_intro.
    split; apply Qle_bool_iff; rewrite H100; discriminate. }
  unfold MapShow.main, MapShow.statistics. cbn [decompose]. rewrite Hx0. cbn [bind].
  unfold resolve_background, MapShow.make_mask. rewrite Hbg. cbn [bind truthy].
  cbn [ignore_background bind].
  assert (Hio : ignore_outliers inpt (concat a) = concat a).
  { unfold ignore_outliers. now rewrite Hvmin, Hvmax. }
  rewrite Hio.
  destruct (percentile2_ok (concat a) _ _ Hne Hv1 Hv2) as [[vlo vup] Hp].
  rewrite Hp. cbn [bind fst snd].
  destruct (percentile2_0_100 _ _ _ _ _ H0 H100 Hp) as [Hlo Hup].
  rewrite (filter_all (fun x => Qle_bool vlo x) _ Hlo).
  rewrite (filter_all (fun x => Qle_bool x vup) _ Hup).
  destruct (histogram_ok (concat a) (nbins inpt) Hbins) as [[counts edges] Hh].
  rewrite Hh. cbn [bind fst snd]. eexists. split; [reflexivity|]. cbn.
  repeat split.
  - rewrite Forall_forall in *. intros x Hx.
    split; apply Qle_bool_iff; auto.
  - apply histogram_spec in Hh. tauto.
Qed.

End DisplayRange.

(** ** The bins of the histogram *)

Section HistogramBins.

Import Numpy MapShow Bins.

Lemma linspace_nth (f l : Q) (num i : nat) :
  (i <= num)%nat ->
  nth i (linspace f l num) 0
  = f + inject_Z (Z.of_nat i) * ((l - f) / inject_Z (Z.of_nat num)).
Proof.
  intros Hi. unfold linspace.
  set (g := fun i0 => f + inject_Z (Z.of_nat i0) * ((l - f) / inject_Z (Z.of_nat num))).
  rewrite (nth_indep _ 0 (g 0%nat)) by (rewrite length_map, length_seq; lia).
  rewrite map_nth, seq_nth by lia. reflexivity.
Qed.

Lemma list_min_In (l : list Q) : forall x, In (list_min x l) (x :: l).
Proof.
  induction l as [|y tl IH]; intros x; cbn [list_min]; [now left|].
  destruct (Qle_bool x y).
  - destruct (IH x) as [H|H]; [now left | right; now right].
  - right. apply IH.
Qed.

Lemma list_max_In (l : list Q) : forall x, In (list_max x l) (x :: l).
Proof.
  induction l as [|y tl IH]; intros x; cbn [list_max]; [now left|].
  destruct (Qle_bool x y).
  - right. apply IH.
  - destruct (IH x) as [H|H]; [now left | right; now right].
Qed.

Lemma histogram_inv (a : list Q) (bins : Z) (counts : list nat) (edges : list Q) :
  histogram a bins = Ok (counts, edges) ->
  let num := Z.to_nat bins in
  let f := fst (outer_edges a) in
  let l := snd (outer_edges a) in
  (0 < num)%nat
  /\ edges = linspace f l num
  /\ counts = map (fun i => List.length (filter (Nat.eqb i) (map (bin_index f l num) a)))
                  (seq 0 num).
Proof.
  unfold histogram. destruct (Z.ltb_spec bins 1) as [|Hb]; [discriminate|].
  pose proof (outer_edges_spec a) as [_ Hcover].
  destruct (outer_edges a) as [f l]. cbn [fst snd] in *.
  intros H. injection H as <- <-. cbv zeta. split; [lia|]. split; [reflexivity|].
  rewrite (filter_all _ a); [reflexivity|].
  eapply Forall_impl; [|exact Hcover]. cbn. intros x [H1 H2].
  apply andb_true_intro. split; now apply Qle_bool_iff.
Qed.

(** Position of a sample relative to an edge, in terms of its raw bin number. *)
Lemma edge_le_iff (f l x : Q) (num j : nat) :
  f < l -> (0 < num)%nat -> f <= x ->
  (f + inject_Z (Z.of_nat j) * ((l - f) / inject_Z (Z.of_nat num)) <= x
   <-> (j <= Z.to_nat (Qfloor ((x - f) * inject_Z (Z.of_nat num) / (l - f))))%nat).
Proof.
  intros Hfl Hnum Hfx.
  set (nq := inject_Z (Z.of_nat num)). set (d := l - f).
  set (v := (x - f) * nq / d). set (jq := inject_Z (Z.of_nat j)).
  assert (Hd : 0 < d) by (unfold d; lra).
  assert (Hnq : 0 < nq).
  { unfold nq. change 0 with (inject_Z 0). rewrite <- Zlt_Qlt. lia. }
  assert (Hw : d / nq * nq == d) by (field; lra).
  assert (Hvd : v * d == (x - f) * nq) by (unfold v; field; lra).
  assert (Hv0 : 0 <= v).
  { unfold v. apply Qle_shift_div_l; [exact Hd|]. nra. }
  assert (Hf0 : (0 <= Qfloor v)%Z).
  { rewrite <- (Qfloor_Z 0). now apply Qfloor_resp_le. }
  pose proof (Qfloor_le v) as Hfl'. pose proof (Qlt_floor v) as Hfu.
  rewrite inject_Z_plus in Hfu. change (inject_Z 1) with 1 in Hfu.
  assert (Hjv : f + jq * (d / nq) <= x <-> jq <= v).
  { split; intros H.
    - assert (H' : jq * d <= v * d) by (rewrite Hvd; nra). nra.
    - assert (H' : jq * (d / nq) * nq <= (x - f) * nq).
      { rewrite <- Qmult_assoc, Hw, <- Hvd. nra. }
      nra. }
  rewrite Hjv. split; intros H.
  - assert (H' : inject_Z (Z.of_nat j) < inject_Z (Qfloor v + 1)).
    { rewrite inject_Z_plus. change (inject_Z 1) with 1. fold jq. lra. }
    rewrite <- Zlt_Qlt in H'. lia.
  - assert (H' : inject_Z (Z.of_nat j) <= inject_Z (Qfloor v)).
    { rewrite <- Zle_Qle. lia. }
    fold jq in H'. lra.
Qed.

Lemma raw_bin_le (f l x : Q) (num : nat) :
  f < l -> (0 < num)%nat -> x <= l ->
  (Z.to_nat (Qfloor ((x - f) * inject_Z (Z.of_nat num) / (l - f))) <= num)%nat.
Proof.
  intros Hfl Hnum Hx.
  pose proof (bin_index_lt f l num x Hfl Hnum Hx) as H. unfold bin_index in H.
  destruct (Nat.eqb_spec (Z.to_nat (Qfloor ((x - f) * inject_Z (Z.of_nat num) / (l - f)))) num);
    lia.
Qed.

(** A sample is given bin [i] exactly when it lies within the edges of bin [i]. *)
Lemma bin_index_in_bin (f l x : Q) (num i : nat) :
  f < l -> (i < num)%nat -> f <= x -> x <= l ->
  Nat.eqb i (bin_index f l num x) = in_bin (linspace f l num) num i x.
Proof.
  intros Hfl Hi Hfx Hxl. unfold in_bin.
  rewrite !linspace_nth by lia.
  assert (Hnum : (0 < num)%nat) by lia.
  pose proof (edge_le_iff f l x num i Hfl Hnum Hfx) as HA.
  pose proof (edge_le_iff f l x num (S i) Hfl Hnum Hfx) as HB.
  pose proof (raw_bin_le f l x num Hfl Hnum Hxl) as Hk.
  unfold bin_index.
  set (k := Z.to_nat (Qfloor ((x - f) * inject_Z (Z.of_nat num) / (l - f)))) in *.
  set (ei := f + inject_Z (Z.of_nat i) * ((l - f) / inject_Z (Z.of_nat num))) in *.
  set (es := f + inject_Z (Z.of_nat (S i)) * ((l - f) / inject_Z (Z.of_nat num))) in *.
  assert (EA : Qle_bool ei x = Nat.leb i k).
  { apply eq_true_iff_eq. rewrite Qle_bool_iff, Nat.leb_le. exact HA. }
  assert (EB : Qle_bool es x = Nat.leb (S i) k).
  { apply eq_true_iff_eq. rewrite Qle_bool_iff, Nat.leb_le. exact HB. }
  rewrite EA. destruct (Nat.eqb_spec (S i) num) as [En|En].
  - assert (El : Qle_bool x es = true).
    { apply Qle_bool_iff. unfold es. rewrite En.
      assert (Hq : 0 < inject_Z (Z.of_nat num)).
      { change 0 with (inject_Z 0). rewrite <- Zlt_Qlt. lia. }
      assert (E : f + inject_Z (Z.of_nat num) * ((l - f) / inject_Z (Z.of_nat num)) == l)
        by (field; lra).
      rewrite E. exact Hxl. }
    rewrite El, andb_true_r. apply eq_true_iff_eq.
    rewrite Nat.eqb_eq, Nat.leb_le. destruct (Nat.eqb_spec k num); lia.
  - rewrite EB. apply eq_true_iff_eq.
    rewrite andb_true_iff, negb_true_iff, Nat.eqb_eq, Nat.leb_le, Nat.leb_gt.
    destruct (Nat.eqb_spec k num); lia.
Qed.

Lemma filter_map_length {A B : Type} (p : B -> bool) (g : A -> B) (l : list A) :
  List.length (filter p (map g l)) = List.length (filter (fun x => p (g x)) l).
Proof.
  induction l as [|x tl IH]; [reflexivity|]. cbn [map filter].
  destruct (p (g x)); cbn [List.length]; now rewrite IH.
Qed.

Lemma filter_ext_Forall {A : Type} (p q : A -> bool) (l : list A) :
  Forall (fun x => p x = q x) l -> filter p l = filter q l.
Proof.
  induction 1 as [|x tl Hx _ IH]; [reflexivity|]. cbn [filter]. now rewrite Hx, IH.
Qed.

Variable np_abs : complex -> Q.
Variable np_angle : complex -> Q.
Variable legacy_compare : bool.

Local Abbreviation main := (main np_abs np_angle legacy_compare).

Lemma main_histogram (inpt : Namespace) (raw : ndarray) (st : state) :
  main inpt raw = Ok st ->
  histogram (imgArray st) (nbins inpt) = Ok (Hvals st, Hedges st).
Proof.
  intros Hrun. apply main_inv in Hrun. destruct Hrun as (mag & a & _ & Hst).
  apply statistics_inv in Hst.
  destruct Hst as (x0 & pop & hh & _ & _ & _ & _ & Hh & -> & -> & _).
  now rewrite <- surjective_pairing.
Qed.

(** X15.  The bin edges are equally spaced and strictly increasing from the
    first to the last, every sample of the histogram population lies
    between the first and the last edge, and unless all samples coincide
    the first edge is the smallest sample and the last edge the largest. *)
Theorem histogram_edges_span (inpt : Namespace) (raw : ndarray) (st : state) :
  main inpt raw = Ok st ->
  let num := Z.to_nat (nbins inpt) in
  let first_edge := nth 0 (Hedges st) 0 in
  let last_edge := nth num (Hedges st) 0 in
  first_edge < last_edge
  /\ (forall i, (i <= num)%nat ->
        nth i (Hedges st) 0
        == first_edge + inject_Z (Z.of_nat i) * ((last_edge - first_edge) / inject_Z (Z.of_nat num)))
  /\ Forall (fun x => first_edge <= x /\ x <= last_edge) (imgArray st)
  /\ ((exists x y, In x (imgArray st) /\ In y (imgArray st) /\ ~ x == y) ->
      exists x y, In x (imgArray st) /\ In y (imgArray st)
                  /\ first_edge == x /\ last_edge == y).
Proof.
  intros Hrun. apply main_histogram in Hrun.
  destruct (histogram_inv _ _ _ _ Hrun) as (Hnum & He & _). cbv zeta in *.
  pose proof (outer_edges_spec (imgArray st)) as [Hlt Hcover].
  set (num := Z.to_nat (nbins inpt)) in *.
  set (f := fst (outer_edges (imgArray st))) in *.
  set (l := snd (outer_edges (imgArray st))) in *.
  assert (Hq : 0 < inject_Z (Z.of_nat num)).
  { change 0 with (inject_Z 0). rewrite <- Zlt_Qlt. lia. }
  assert (E0 : nth 0 (Hedges st) 0 == f).
  { rewrite He, linspace_nth by lia. cbn [Z.of_nat]. change (inject_Z 0) with 0. ring. }
  assert (En : nth num (Hedges st) 0 == l).
  { rewrite He, linspace_nth by lia. field. lra. }
  repeat split.
  - rewrite E0, En. exact Hlt.
  - intros i Hi. rewrite E0, En, He, linspace_nth by lia. reflexivity.
  - eapply Forall_impl; [|exact Hcover]. cbn. intros x Hx. rewrite E0, En. exact Hx.
  - intros (x & y & Hx & Hy & Hxy).
    unfold f, l in E0, En. unfold outer_edges in E0, En.
    destruct (imgArray st) as [|z tl] eqn:Ea; [contradiction|].
    destruct (list_min_spec tl z) as [Hm1 Hm2].
    destruct (list_max_spec tl z) as [HM1 HM2].
    destruct (Qeq_bool (list_min z tl) (list_max z tl)) eqn:E.
    + exfalso. apply Qeq_bool_iff in E. apply Hxy.
      assert (Hb : forall w, In w (z :: tl) -> list_min z tl <= w /\ w <= list_max z tl).
      { rewrite Forall_forall in Hm2, HM2.
        intros w [<-|Hw]; split; auto. }
      destruct (Hb x Hx), (Hb y Hy). lra.
    + exists (list_min z tl), (list_max z tl). cbn [fst snd] in E0, En.
      repeat split; try assumption; [apply list_min_In | apply list_max_In].
Qed.

(** X16.  Each bin count is the number of samples of the histogram
    population that lie between the edges of that bin, left edge included
    and right edge excluded, except that the last bin includes its right
    edge. *)
Theorem histogram_counts_by_edges (inpt : Namespace) (raw : ndarray) (st : state) :
  main inpt raw = Ok st ->
  forall i, (i < Z.to_nat (nbins inpt))%nat ->
    nth i (Hvals st) 0%nat
    = List.length (filter (in_bin (Hedges st) (Z.to_nat (nbins inpt)) i) (imgArray st)).
Proof.
  intros Hrun i Hi. apply main_histogram in Hrun.
  destruct (histogram_inv _ _ _ _ Hrun) as (Hnum & He & Hc). cbv zeta in *.
  pose proof (outer_edges_spec (imgArray st)) as [Hlt Hcover].
  set (num := Z.to_nat (nbins inpt)) in *.
  set (f := fst (outer_edges (imgArray st))) in *.
  set (l := snd (outer_edges (imgArray st))) in *.
  rewrite Hc, He.
  set (g := fun i0 => List.length (filter (Nat.eqb i0) (map (bin_index f l num) (imgArray st)))).
  rewrite (nth_indep _ 0%nat (g 0%nat)) by (rewrite length_map, length_seq; lia).
  rewrite map_nth, seq_nth by lia. unfold g. cbn [Nat.add].
  rewrite filter_map_length. f_equal. apply filter_ext_Forall.
  eapply Forall_impl; [|exact Hcover]. cbn. intros x [H1 H2].
  now apply bin_index_in_bin.
Qed.

End HistogramBins.

(** ** The edge values and their most common value, continued *)

Section EdgeMore.

Import Numpy Scipy MapShow.






End EdgeMore.

(** ** Downsampling for display *)

Section Downsampling.

Import MapShow Display.

Lemma stride_from_nth {A : Type} (d : nat) (def : A) (l : list A) :
  (0 < d)%nat ->
  forall k i, (k < d)%nat -> nth i (stride_from d k l) def = nth (k + i * d) l def.
Proof.
  intros Hd. induction l as [|x tl IH]; intros k i Hk; cbn [stride_from].
  - destruct i; (match goal with |- _ = nth ?m [] _ => destruct m end); reflexivity.
  - destruct k as [|k'].
    + destruct i as [|i']; [reflexivity|].
      cbn [nth]. rewrite IH by lia.
      replace (0 + S i' * d)%nat with (S (d - 1 + i' * d)) by lia. reflexivity.
    + rewrite IH by lia. reflexivity.
Qed.

Lemma stride_from_length {A : Type} (d : nat) (l : list A) :
  (0 < d)%nat ->
  forall k, (k < d)%nat ->
    List.length (stride_from d k l) = ((List.length l + d - 1 - k) / d)%nat.
Proof.
  intros Hd. induction l as [|x tl IH]; intros k Hk; cbn [stride_from List.length].
  - symmetry. apply Nat.div_small. lia.
  - destruct k as [|k'].
    + cbn [List.length]. rewrite IH by lia.
      replace (List.length tl + d - 1 - (d - 1))%nat with (List.length tl) by lia.
      replace (S (List.length tl) + d - 1 - 0)%nat with (List.length tl + 1 * d)%nat by lia.
      rewrite Nat.div_add by lia. lia.
    + rewrite IH by lia. f_equal. lia.
Qed.

Lemma stride_1 {A : Type} (l : list A) : stride 1 l = l.
Proof.
  unfold stride. induction l as [|x tl IH]; [reflexivity|].
  cbn [stride_from Nat.sub]. now rewrite IH.
Qed.

(** X19.  The downsample option at its edges: with [--downsample 0] (the
    default) the displayed array is the array itself; a negative value
    makes the step [int(2**dsample)] zero and the slicing raise
    [ValueError]. *)
Theorem downsample_edge_cases {A : Type} (dsample : Z) (a : list (list A)) :
  (dsample = 0%Z -> downsample dsample a = Ok a)
  /\ ((dsample < 0)%Z -> downsample dsample a = Raise ValueError)
  /\ ((0 <= dsample)%Z -> exists b, downsample dsample a = Ok b).
Proof.
  unfold downsample, dsample_factor. split; [|split].
  - intros ->. cbn. rewrite stride_1. f_equal.
    induction a as [|r tl IH]; [reflexivity|]. cbn [map]. now rewrite stride_1, IH.
  - intros H. destruct (Z.leb_spec 0 dsample); [lia | reflexivity].
  - intros H. destruct (Z.leb_spec 0 dsample); [|lia].
    assert (Hp : (0 < 2 ^ dsample)%Z) by (apply Z.pow_pos_nonneg; lia).
    destruct (Z.eqb_spec (2 ^ dsample) 0); [lia | eauto].
Qed.

(** X20.  For a non-negative [dsample] the displayed array holds every
    [2^dsample]-th row and column of the array, starting with the first:
    its sample (i, j) is the sample (i * 2^dsample, j * 2^dsample) of the
    array, and an M x N array is reduced to ceil(M / 2^dsample) rows of
    ceil(N / 2^dsample) samples. *)
Theorem downsample_samples (dsample : Z) (a : list (list Q)) (M N : nat) :
  (0 <= dsample)%Z -> has_shape M N a ->
  let d := Z.to_nat (2 ^ dsample) in
  exists b,
    downsample dsample a = Ok b
    /\ (forall i j, sample_at b i j = sample_at a (i * d) (j * d))
    /\ has_shape ((M + d - 1) / d) ((N + d - 1) / d) b.
Proof.
  intros Hds [HM HN]. cbv zeta.
  assert (Hp : (0 < 2 ^ dsample)%Z) by (apply Z.pow_pos_nonneg; lia).
  set (d := Z.to_nat (2 ^ dsample)).
  assert (Hd : (0 < d)%nat) by (unfold d; lia).
  unfold downsample, dsample_factor.
  destruct (Z.leb_spec 0 dsample); [|lia].
  destruct (Z.eqb_spec (2 ^ dsample) 0); [lia|]. fold d.
  eexists. split; [reflexivity|]. split.
  - intros i j. unfold sample_at.
    change [] with (stride d (@nil Q)) at 1. rewrite map_nth.
    unfold stride. rewrite !stride_from_nth by lia. reflexivity.
  - split.
    + rewrite length_map. unfold stride. rewrite stride_from_length by lia.
      rewrite HM. f_equal. lia.
    + rewrite Forall_map. rewrite Forall_forall in *. intros r Hr.
      assert (Hin : In r a).
      { apply (In_nth _ _ []) in Hr. destruct Hr as [i [Hi <-]].
        unfold stride in *. rewrite stride_from_nth by lia.
        rewrite stride_from_length in Hi by lia.
        apply nth_In.
        pose proof (Nat.Div0.mul_div_le (List.length a + d - 1 - 0) d) as Hq.
        set (q := ((List.length a + d - 1 - 0) / d)%nat) in *.
        assert (Hs : (S i * d <= d * q)%nat) by nia.
        lia. }
      unfold stride. rewrite stride_from_length by lia. rewrite (HN r Hin).
      f_equal. lia.
Qed.

End Downsampling.

(** ** The further properties on concrete inputs *)

Ltac qcompute := unfold Qle, Qlt, Qeq; cbn; lia.

(** X1 at the north-up transform: longitude 5/2 is in column 2. *)
Lemma coords2px_column_contains_witness :
  exists px py,
    InsarFormatting.coords2px Inputs.north_up (5 # 2) (- (3 # 2)) = Ok (px, py)
    /\ (0 <= px)%Z
    /\ InsarFormatting.tnsf0 Inputs.north_up
       + inject_Z px * InsarFormatting.tnsf1 Inputs.north_up <= 5 # 2
    /\ 5 # 2 < InsarFormatting.tnsf0 Inputs.north_up
               + (inject_Z px + 1) * InsarFormatting.tnsf1 Inputs.north_up.
Proof.
  apply (coords2px_column_contains Inputs.north_up (5 # 2) (- (3 # 2))); qcompute.
Defined.

(** X2 at the north-up transform: longitude -1/2 is given column 0. *)
Lemma coords2px_truncates_toward_zero_witness :
  exists py, InsarFormatting.coords2px Inputs.north_up (- (1 # 2)) 0 = Ok (0%Z, py).
Proof.
  apply (coords2px_truncates_toward_zero Inputs.north_up (- (1 # 2)) 0); qcompute.
Defined.

(** X3 at the north-up transform: latitude -5/2, in row 2, is given row -2. *)
Lemma coords2px_row_negated_witness :
  exists px,
    InsarFormatting.coords2px Inputs.north_up 0 (- (5 # 2))
    = Ok (px, (- Qfloor ((- (5 # 2) - InsarFormatting.tnsf3 Inputs.north_up)
                         / InsarFormatting.tnsf5 Inputs.north_up))%Z).
Proof.
  apply (coords2px_row_negated Inputs.north_up 0 (- (5 # 2))); qcompute.
Defined.

(** X4 for the middle of a 2 x 3 raster with a positive y step. *)
Lemma GDALtransform_extent_contains_witness :
  let g := InsarFormatting.GDALtransform_init Inputs.south_up (2%Z, 3%Z) in
  InsarFormatting.xmin g <= fst (InsarFormatting.px2coords Inputs.south_up (3 # 2) 1)
  /\ fst (InsarFormatting.px2coords Inputs.south_up (3 # 2) 1) <= InsarFormatting.xmax g
  /\ InsarFormatting.ymin g <= snd (InsarFormatting.px2coords Inputs.south_up (3 # 2) 1)
  /\ snd (InsarFormatting.px2coords Inputs.south_up (3 # 2) 1) <= InsarFormatting.ymax g.
Proof.
  apply (GDALtransform_extent_contains Inputs.south_up 2 3 (3 # 2) 1); qcompute.
Defined.

(** X6 for a 2 x 3 north-up raster. *)
Lemma north_up_extents_agree_witness :
  let g := InsarFormatting.GDALtransform_init Inputs.north_up (2%Z, 3%Z) in
  let '(l, r, b, t) := InsarFormatting.transform2extent Inputs.north_up 2 3 in
  let '(l', r', b', t') := MapShow.extent Inputs.north_up 2 3 in
  (InsarFormatting.xmin g == l /\ InsarFormatting.xmax g == r
   /\ InsarFormatting.ymin g == b /\ InsarFormatting.ymax g == t)
  /\ (l' == l /\ r' == r /\ b' == b /\ t' == t).
Proof.
  apply (north_up_extents_agree Inputs.north_up 2 3); qcompute.
Defined.

Import MapShow.

(** X8 with [--background 5] on the array of fives around a one. *)
Lemma literal_background_masks_nothing_witness :
  population false Inputs.opts_bg_str5 Inputs.img5
  = Ok (ignore_outliers Inputs.opts_bg_str5 (concat Inputs.img5))
  /\ population false Inputs.opts_bg_str5 Inputs.img5
     = population false (set_background PyNone Inputs.opts_bg_str5) Inputs.img5.
Proof.
  destruct (literal_background_masks_nothing Inputs.abs0 Inputs.angle0 false
              Inputs.opts_bg_str5 Inputs.img5 "5") as [H _];
    [reflexivity | discriminate | discriminate |].
  exact (H eq_refl).
Defined.

(** X9 with [--background auto] on the border of nines. *)
Lemma final_population_sound_witness :
  exists st,
    main Inputs.abs0 Inputs.angle0 false Inputs.opts_bg_auto (Float Inputs.img9) = Ok st
    /\ Forall (fun x =>
                 In x (concat (img st))
                 /\ vmin_ st <= x /\ x <= vmax_ st
                 /\ above_vmin Inputs.opts_bg_auto x = true
                 /\ below_vmax Inputs.opts_bg_auto x = true
                 /\ (forall v, bg st = PyNum v ->
                               truthy (background Inputs.opts_bg_auto) = true -> ~ x == v))
              (imgArray st).
Proof.
  eexists. split; [vm_compute; reflexivity|].
  apply (final_population_sound Inputs.abs0 Inputs.angle0 false Inputs.opts_bg_auto
           (Float Inputs.img9)).
  vm_compute. reflexivity.
Defined.

(** X12 and X13 with the quartiles of the interior of the border of nines. *)
Lemma display_range_ordered_witness :
  exists st,
    main Inputs.abs0 Inputs.angle0 false MoreInputs.opts_auto_quartiles (Float Inputs.img9)
    = Ok st
    /\ vmin_ st <= vmax_ st.
Proof.
  eexists. split; [vm_compute; reflexivity|].
  apply (display_range_ordered Inputs.abs0 Inputs.angle0 false
           MoreInputs.opts_auto_quartiles (Float Inputs.img9)).
  - vm_compute. reflexivity.
  - qcompute.
Defined.

Lemma display_range_within_population_witness :
  exists st,
    main Inputs.abs0 Inputs.angle0 false MoreInputs.opts_auto_quartiles (Float Inputs.img9)
    = Ok st
    /\ exists pop, population false MoreInputs.opts_auto_quartiles (img st) = Ok pop
         /\ (exists x y, In x pop /\ In y pop /\ x <= vmin_ st /\ vmin_ st <= y)
         /\ (exists x y, In x pop /\ In y pop /\ x <= vmax_ st /\ vmax_ st <= y).
Proof.
  eexists. split; [vm_compute; reflexivity|].
  apply (display_range_within_population Inputs.abs0 Inputs.angle0 false
           MoreInputs.opts_auto_quartiles (Float Inputs.img9)).
  vm_compute. reflexivity.
Defined.

(** X14 with the parser defaults on the array of fives around a one. *)
Lemma default_run_keeps_everything_witness :
  exists st,
    main Inputs.abs0 Inputs.angle0 false default_options (Float Inputs.img5) = Ok st
    /\ imgArray st = concat Inputs.img5
    /\ Forall (fun x => vmin_ st <= x /\ x <= vmax_ st) (concat Inputs.img5)
    /\ list_sum (Hvals st) = List.length (concat Inputs.img5).
Proof.
  apply (default_run_keeps_everything Inputs.abs0 Inputs.angle0 false default_options
           Inputs.img5 5); try reflexivity.
  cbn. lia.
Defined.

(** X15 and X16 with two bins on the samples 1 and 2. *)
Lemma histogram_edges_span_witness :
  exists st,
    main Inputs.abs0 Inputs.angle0 false Inputs.opts_small (Float [[1; 2]]) = Ok st
    /\ nth 0 (Hedges st) 0 < nth 2 (Hedges st) 0
    /\ Forall (fun x => nth 0 (Hedges st) 0 <= x /\ x <= nth 2 (Hedges st) 0) (imgArray st).
Proof.
  eexists. split; [vm_compute; reflexivity|].
  destruct (histogram_edges_span Inputs.abs0 Inputs.angle0 false Inputs.opts_small
              (Float [[1; 2]]) _ eq_refl) as (H1 & _ & H3 & _).
  split; [exact H1 | exact H3].
Defined.

Lemma histogram_counts_by_edges_witness :
  exists st,
    main Inputs.abs0 Inputs.angle0 false Inputs.opts_small (Float [[1; 2]]) = Ok st
    /\ nth 1 (Hvals st) 0%nat
       = List.length (filter (Bins.in_bin (Hedges st) 2 1) (imgArray st)).
Proof.
  eexists. split; [vm_compute; reflexivity|].
  apply (histogram_counts_by_edges Inputs.abs0 Inputs.angle0 false Inputs.opts_small
           (Float [[1; 2]]) _ eq_refl 1%nat).
  cbn. lia.
Defined.



(** X19 with [--downsample -1] and X20 with [--downsample 1] on the border
    of nines. *)
Lemma downsample_edge_cases_witness :
  Display.downsample (-1) Inputs.img9 = Raise ValueError
  /\ Display.downsample 0 Inputs.img9 = Ok Inputs.img9.
Proof.
  split.
  - apply (proj1 (proj2 (downsample_edge_cases (-1) Inputs.img9))). lia.
  - apply (proj1 (downsample_edge_cases 0 Inputs.img9)). reflexivity.
Defined.

Lemma downsample_samples_witness :
  exists b,
    Display.downsample 1 Inputs.img9 = Ok b
    /\ (forall i j, sample_at b i j = sample_at Inputs.img9 (i * 2) (j * 2))
    /\ has_shape 2 2 b.
Proof.
  apply (downsample_samples 1 Inputs.img9 4 4).
  - lia.
  - split; [reflexivity | repeat constructor].
Defined.

(** ** The error states of the transform helpers *)

Section ErrorStates.

Import Floats.

Variable fl : Q -> pyfloat.
Variable numpy_scalars : bool.

Local Abbreviation fdiv := (fdiv fl numpy_scalars).
Local Abbreviation float_coords2px := (Floats.coords2px fl numpy_scalars).

Lemma fdiv_cases (a b : pyfloat) :
  (is_zero b = true /\ numpy_scalars = false /\ fdiv a b = Raise ZeroDivisionError)
  \/ ((is_zero b = false \/ numpy_scalars = true) /\ fdiv a b = Ok (ieee_div fl a b)).
Proof.
  unfold Floats.fdiv. destruct (is_zero b), numpy_scalars; cbn; auto.
Qed.

(** By the IEEE rules a quotient by zero is an infinity or NaN. *)
Lemma ieee_div_by_zero (a b : pyfloat) :
  is_zero b = true -> exists e, fint (ieee_div fl a b) = Raise e.
Proof.
  destruct b as [y| |]; try discriminate. cbn [is_zero]. intros Hy.
  destruct a as [x|s|]; cbn [ieee_div]; try rewrite Hy; cbn; eauto.
  destruct (Qeq_bool x 0); cbn; eauto.
Qed.

Lemma float_coords2px_errors (tnsf : ftransform) (lon lat : pyfloat) (e : pyexc) :
  float_coords2px tnsf lon lat = Raise e ->
  e = ZeroDivisionError \/ e = OverflowError \/ e = ValueError.
Proof.
  unfold Floats.coords2px, Floats.fdiv, bind, fint. cbv zeta.
  destruct (is_zero (ft1 tnsf) && negb numpy_scalars); cbv beta iota.
  { intros H. injection H as <-. now left. }
  destruct (ieee_div fl (fsub fl lon (ft0 tnsf)) (ft1 tnsf)) as [x|sx|];
    cbv beta iota.
  2:{ intros H. injection H as <-. right. now left. }
  2:{ intros H. injection H as <-. right. now right. }
  destruct (is_zero (ft5 tnsf) && negb numpy_scalars); cbv beta iota.
  { intros H. injection H as <-. now left. }
  destruct (ieee_div fl (fsub fl (ft3 tnsf) lat) (ft5 tnsf)) as [y|sy|];
    cbv beta iota; intros H.
  - discriminate H.
  - injection H as <-. right. now left.
  - injection H as <-. right. now right.
Qed.

Lemma float_coords2px_zero_step (tnsf : ftransform) (lon lat : pyfloat) :
  is_zero (ft1 tnsf) = true \/ is_zero (ft5 tnsf) = true ->
  exists e, float_coords2px tnsf lon lat = Raise e.
Proof.
  intros Hz. unfold Floats.coords2px. cbv zeta.
  destruct (fdiv_cases (fsub fl lon (ft0 tnsf)) (ft1 tnsf)) as [(_ & _ & ->)|(Hx & ->)];
    cbn [bind]; [eauto|].
  destruct (fint (ieee_div fl (fsub fl lon (ft0 tnsf)) (ft1 tnsf))) as [px|e1] eqn:E1;
    cbn [bind]; [|eauto].
  destruct (fdiv_cases (fsub fl (ft3 tnsf) lat) (ft5 tnsf)) as [(_ & _ & ->)|(Hy & ->)];
    cbn [bind]; [eauto|].
  destruct Hz as [Hz|Hz].
  - destruct (ieee_div_by_zero (fsub fl lon (ft0 tnsf)) (ft1 tnsf) Hz) as [e He].
    congruence.
  - destruct (ieee_div_by_zero (fsub fl (ft3 tnsf) lat) (ft5 tnsf) Hz) as [e ->].
    cbn [bind]. eauto.
Qed.

Lemma float_coords2px_returns (tnsf : ftransform) (lon lat : pyfloat) :
  is_zero (ft1 tnsf) = false -> is_zero (ft5 tnsf) = false ->
  ((exists p, float_coords2px tnsf lon lat = Ok p)
   <-> exists x y,
         ieee_div fl (fsub fl lon (ft0 tnsf)) (ft1 tnsf) = Finite x
         /\ ieee_div fl (fsub fl (ft3 tnsf) lat) (ft5 tnsf) = Finite y).
Proof.
  intros Hx Hy. unfold Floats.coords2px, Floats.fdiv. cbv zeta.
  rewrite Hx, Hy. cbn [andb bind]. split.
  - intros [p H].
    destruct (ieee_div fl (fsub fl lon (ft0 tnsf)) (ft1 tnsf)) as [x| |];
      cbn [fint bind] in H; try discriminate.
    destruct (ieee_div fl (fsub fl (ft3 tnsf) lat) (ft5 tnsf)) as [y| |];
      cbn [fint bind] in H; try discriminate.
    eauto.
  - intros (x & y & -> & ->). cbn [fint bind]. eauto.
Qed.

End ErrorStates.

(** On finite values and without rounding the float model is the exact one. *)
Lemma float_coords2px_exact (tnsf : InsarFormatting.geotransform) (lon lat : Q) :
  Floats.coords2px Floats.Finite false (Floats.of_geotransform tnsf)
    (Floats.Finite lon) (Floats.Finite lat)
  = InsarFormatting.coords2px tnsf lon lat.
Proof.
  unfold Floats.coords2px, InsarFormatting.coords2px, Floats.fdiv, py_truediv, bind,
    Floats.fint, Floats.ieee_div, Floats.fsub, Floats.is_zero, Floats.of_geotransform.
  cbn [Floats.ft0 Floats.ft1 Floats.ft3 Floats.ft5 negb]. cbv zeta.
  rewrite !andb_true_r.
  destruct (Qeq_bool (InsarFormatting.tnsf1 tnsf) 0); cbv beta iota; [reflexivity|].
  destruct (Qeq_bool (InsarFormatting.tnsf5 tnsf) 0); cbv beta iota; reflexivity.
Qed.

(** C9, as stated, fails: the constructor called with a transform but no
    shape raises [TypeError], and [coords2px] with nonzero steps raises
    [OverflowError] when a quotient overflows (longitude 1e200 over pixels
    of 1e-200). *)
Lemma transform_other_error_states :
  Construct.GDALtransform_new None (Some Inputs.north_up) None = Raise TypeError
  /\ Floats.is_zero (Floats.ft1 Floats.tiny_pixels) = false
  /\ Floats.is_zero (Floats.ft5 Floats.tiny_pixels) = false
  /\ Floats.coords2px Floats.fl_overflow false Floats.tiny_pixels Floats.far_east
       (Floats.Finite 0)
     = Raise OverflowError.
Proof. repeat split; vm_compute; reflexivity. Qed.

(** C9, amended.  The helpers have no error type of their own; their
    failures are Python's.  [coords2px] raises nothing but
    [ZeroDivisionError], [OverflowError] and [ValueError]; it fails whenever
    the x step or the y step is zero (with [ZeroDivisionError] for a zero x
    step of Python floats), and for nonzero steps it returns exactly when
    both quotients are finite, failing in [int()] on an infinite or NaN
    quotient; on finite values without overflow it computes what the exact
    model computes, which fails exactly for a zero step.  The
    [GDALtransform] constructor fails, with [TypeError], exactly when it is
    given no dataset and lacks a transform or a shape. *)
Theorem transform_error_states :
  (forall fl numpy_scalars tnsf lon lat e,
      Floats.coords2px fl numpy_scalars tnsf lon lat = Raise e ->
      e = ZeroDivisionError \/ e = OverflowError \/ e = ValueError)
  /\ (forall fl numpy_scalars tnsf lon lat,
        Floats.is_zero (Floats.ft1 tnsf) = true \/ Floats.is_zero (Floats.ft5 tnsf) = true ->
        exists e, Floats.coords2px fl numpy_scalars tnsf lon lat = Raise e)
  /\ (forall fl tnsf lon lat,
        Floats.is_zero (Floats.ft1 tnsf) = true ->
        Floats.coords2px fl false tnsf lon lat = Raise ZeroDivisionError)
  /\ (forall fl numpy_scalars tnsf lon lat,
        Floats.is_zero (Floats.ft1 tnsf) = false ->
        Floats.is_zero (Floats.ft5 tnsf) = false ->
        ((exists p, Floats.coords2px fl numpy_scalars tnsf lon lat = Ok p)
         <-> exists x y,
               Floats.ieee_div fl (Floats.fsub fl lon (Floats.ft0 tnsf)) (Floats.ft1 tnsf)
               = Floats.Finite x
               /\ Floats.ieee_div fl (Floats.fsub fl (Floats.ft3 tnsf) lat) (Floats.ft5 tnsf)
                  = Floats.Finite y))
  /\ (forall tnsf lon lat,
        Floats.coords2px Floats.Finite false (Floats.of_geotransform tnsf)
          (Floats.Finite lon) (Floats.Finite lat)
        = InsarFormatting.coords2px tnsf lon lat
        /\ (InsarFormatting.coords2px tnsf lon lat = Raise ZeroDivisionError
            <-> (InsarFormatting.tnsf1 tnsf == 0 \/ InsarFormatting.tnsf5 tnsf == 0))
        /\ (forall e, InsarFormatting.coords2px tnsf lon lat = Raise e ->
                      e = ZeroDivisionError))
  /\ (forall DS transform shape,
        (Construct.GDALtransform_new DS transform shape = Raise TypeError
         <-> DS = None /\ (transform = None \/ shape = None))
        /\ (forall e, Construct.GDALtransform_new DS transform shape = Raise e ->
                      e = TypeError)).
Proof.
  split; [|split; [|split; [|split; [|split]]]].
  - intros fl np tnsf lon lat e. apply float_coords2px_errors.
  - intros fl np tnsf lon lat. apply float_coords2px_zero_step.
  - intros fl tnsf lon lat Hz. unfold Floats.coords2px, Floats.fdiv. cbv zeta.
    now rewrite Hz.
  - intros fl np tnsf lon lat. apply float_coords2px_returns.
  - intros tnsf lon lat. split; [apply float_coords2px_exact|].
    destruct (coords2px_fails_iff_zero_step tnsf lon lat) as (H1 & _ & H3).
    split; assumption.
  - intros DS transform shape. split.
    + destruct DS as [d|], transform as [t|], shape as [sh|]; cbn;
        split; intuition congruence.
    + destruct DS as [d|], transform as [t|], shape as [sh|]; cbn;
        intros e H; inversion H; reflexivity.
Qed.

(** C9, amended, on concrete inputs: a zero x step, the north-up transform
    at a finite point, and the constructor without a shape. *)
Lemma transform_error_states_witness :
  Floats.coords2px Floats.fl_overflow false
    (Floats.of_geotransform (InsarFormatting.mkTransform 0 0 0 0 0 1))
    (Floats.Finite 2) (Floats.Finite 3)
  = Raise ZeroDivisionError
  /\ (exists e, Floats.coords2px Floats.fl_overflow true
                  (Floats.of_geotransform (InsarFormatting.mkTransform 0 0 0 0 0 1))
                  (Floats.Finite 2) (Floats.Finite 3) = Raise e)
  /\ (exists p, Floats.coords2px Floats.fl_overflow false
                  (Floats.of_geotransform Inputs.north_up)
                  (Floats.Finite 2) (Floats.Finite 3) = Ok p)
  /\ Construct.GDALtransform_new None (Some Inputs.north_up) None = Raise TypeError.
Proof.
  destruct transform_error_states as (_ & Hzero & Hzde & Hret & _ & Hnew).
  split; [|split; [|split]].
  - apply Hzde. reflexivity.
  - apply Hzero. left. reflexivity.
  - apply Hret; [reflexivity | reflexivity |].
    do 2 eexists. split; reflexivity.
  - apply (proj1 (Hnew None (Some Inputs.north_up) None)). split; [reflexivity | now right].
Defined.
